(** * File Organizer: a shallow embedding of [organizer.c] and [logger.c]

    The organizer scans one directory, classifies each regular file by its
    extension and renames it into a category sub-directory.  C strings are
    modelled as [string] (NUL-free byte sequences), [size_t] and [int] values
    as [Z], fixed-size [char] buffers by their size and current contents, and
    the operating system by an interface of the four system calls the code
    issues ([stat], [mkdir], [rename], [opendir]/[readdir]). *)

From Stdlib Require Import String Ascii ZArith List Lia Bool DecimalString DecimalZ DecimalPos.
Import ListNotations.

Local Open Scope string_scope.
Local Open Scope Z_scope.

(** ** C string primitives *)

Definition strlen (s : string) : Z := Z.of_nat (String.length s).

(** [strrchr s c]: offset of the last occurrence of [c] in [s], [None] for the
    NULL result. *)
Fixpoint strrchr (s : string) (c : ascii) : option nat :=
  match s with
  | EmptyString => None
  | String a rest =>
      match strrchr rest c with
      | Some k => Some (S k)
      | None => if Ascii.eqb a c then Some 0%nat else None
      end
  end.

(** The first [n] characters of [s] (what a bounded copy keeps). *)
Fixpoint str_take (n : nat) (s : string) : string :=
  match n, s with
  | O, _ => EmptyString
  | S _, EmptyString => EmptyString
  | S k, String a rest => String a (str_take k rest)
  end.

(** The string starting at offset [n] of [s] (pointer arithmetic [s + n]). *)
Fixpoint str_drop (n : nat) (s : string) : string :=
  match n, s with
  | O, _ => s
  | S _, EmptyString => EmptyString
  | S k, String _ rest => str_drop k rest
  end.

(** The last character of a non-empty string, [dir[len - 1]]. *)
Fixpoint str_last (s : string) : option ascii :=
  match s with
  | EmptyString => None
  | String a EmptyString => Some a
  | String _ rest => str_last rest
  end.

(** ** Extension table *)

Record ExtensionCategory : Type := mkExt {
  ext : string;       (* lowercase extension, without dot *)
  category : string   (* directory name *)
}.

Definition EXTENSION_TABLE : list ExtensionCategory :=
  [ mkExt "jpg"  "Images";
    mkExt "jpeg" "Images";
    mkExt "png"  "Images";
    mkExt "gif"  "Images";
    mkExt "bmp"  "Images";
    mkExt "tif"  "Images";
    mkExt "tiff" "Images";
    mkExt "svg"  "Images";

    mkExt "txt"  "Documents";
    mkExt "md"   "Documents";
    mkExt "pdf"  "Documents";
    mkExt "doc"  "Documents";
    mkExt "docx" "Documents";
    mkExt "rtf"  "Documents";

    mkExt "xls"  "Spreadsheets";
    mkExt "xlsx" "Spreadsheets";
    mkExt "csv"  "Spreadsheets";

    mkExt "ppt"  "Presentations";
    mkExt "pptx" "Presentations";

    mkExt "mp3"  "Audio";
    mkExt "wav"  "Audio";
    mkExt "flac" "Audio";
    mkExt "aac"  "Audio";
    mkExt "ogg"  "Audio";

    mkExt "mp4"  "Video";
    mkExt "mkv"  "Video";
    mkExt "avi"  "Video";
    mkExt "mov"  "Video";
    mkExt "wmv"  "Video";

    mkExt "zip"  "Archives";
    mkExt "rar"  "Archives";
    mkExt "7z"   "Archives";
    mkExt "tar"  "Archives";
    mkExt "gz"   "Archives";

    mkExt "c"    "Source";
    mkExt "h"    "Source";
    mkExt "cpp"  "Source";
    mkExt "hpp"  "Source";
    mkExt "py"   "Source";
    mkExt "java" "Source";
    mkExt "js"   "Source";
    mkExt "ts"   "Source";
    mkExt "cs"   "Source";
    mkExt "go"   "Source";
    mkExt "rb"   "Source";
    mkExt "php"  "Source" ].

Definition DEFAULT_CATEGORY : string := "Other".

(** ** Extension classifier *)

Definition lower_char (c : ascii) : ascii :=
  let n := Z.of_N (N_of_ascii c) in
  if (65 <=? n) && (n <=? 90)
  then ascii_of_N (Z.to_N (n - 65 + 97))
  else c.

Fixpoint to_lowercase (s : string) : string :=
  match s with
  | EmptyString => EmptyString
  | String c rest => String (lower_char c) (to_lowercase rest)
  end.

Definition get_extension (name : string) : option string :=
  match strrchr name "." with
  | None => None
  | Some O => None
  | Some dot => Some (str_drop (S dot) name)
  end.

(** The [for] loop of [category_for_extension]: first entry whose key compares
    equal to [tmp], scanning the table in order. *)
Fixpoint table_scan (tmp : string) (table : list ExtensionCategory) : string :=
  match table with
  | [] => DEFAULT_CATEGORY
  | e :: rest => if String.eqb tmp (ext e) then category e else table_scan tmp rest
  end.

(** [sizeof(tmp)] for [char tmp[64]]. *)
Definition TMP_SIZE : Z := 64.

Definition category_for_extension (e : option string) : string :=
  match e with
  | None => DEFAULT_CATEGORY
  | Some e =>
      let len := strlen e in
      if (len =? 0) || (len >=? TMP_SIZE) then DEFAULT_CATEGORY
      else
        let tmp := to_lowercase e in
        table_scan tmp EXTENSION_TABLE
  end.

(** ** The operating system, as seen by the organizer *)

(** File type bits of [st_mode], as reported by [stat]. *)
Inductive file_type : Type :=
  | S_IFREG | S_IFDIR | S_IFLNK | S_IFCHR | S_IFBLK | S_IFIFO | S_IFSOCK.

Definition S_ISDIR (m : file_type) : bool :=
  match m with S_IFDIR => true | _ => false end.

Definition S_ISREG (m : file_type) : bool :=
  match m with S_IFREG => true | _ => false end.

(** The system calls used by [organizer.c].  A result of [None] is the failing
    return of the call ([-1], or [NULL] for [opendir]); a failing [mkdir] or
    [rename] leaves the file system as it was.  [os_readdir] gives the names
    that the [readdir] loop over a freshly opened directory returns. *)
Class OS : Type := {
  FS : Type;
  os_stat : FS -> string -> option file_type;
  os_mkdir : FS -> string -> Z -> option FS;
  os_rename : FS -> string -> string -> option FS;
  os_readdir : FS -> string -> option (list string)
}.

(** ** Logger ([logger.h], [logger.c]) *)

Inductive LogLevel : Type :=
  | LOG_LEVEL_ERROR | LOG_LEVEL_WARN | LOG_LEVEL_INFO | LOG_LEVEL_DEBUG.

Definition level_value (l : LogLevel) : Z :=
  match l with
  | LOG_LEVEL_ERROR => 0
  | LOG_LEVEL_WARN => 1
  | LOG_LEVEL_INFO => 2
  | LOG_LEVEL_DEBUG => 3
  end.

(** One constructor per format string passed to [logger_log] in
    [organizer.c], carrying its [%s] arguments (the [strerror] text is left
    out). *)
Inductive Message : Type :=
  | MsgInvalidConfiguration
  | MsgCannotAccess (base_dir : string)
  | MsgNotADirectory (base_dir : string)
  | MsgOpenFailed (base_dir : string)
  | MsgOrganizing (base_dir : string) (dry : bool)
  | MsgSkipCannotStat (src : string)
  | MsgSkipNonRegular (src : string)
  | MsgExistsNotDirectory (path : string)
  | MsgCreateFailed (path : string)
  | MsgCreated (path : string)
  | MsgNoUniqueName (filename dir : string)
  | MsgDryRunMove (src dst : string)
  | MsgMoveFailed (src dst : string)
  | MsgMoved (src dst : string).

(** What a run does to the outside world, in order: the mutating system calls
    it issues and the lines it prints. *)
Inductive Event : Type :=
  | EvMkdir (path : string) (mode : Z)
  | EvRename (src dst : string)
  | EvLog (level : LogLevel) (msg : Message).

Section Engine.

Context `{os : OS}.

Record World : Type := mkWorld {
  fs : FS;
  current_level : LogLevel;   (* the logger's static variable *)
  events : list Event
}.

(** State passing over [World]. *)
Definition M (A : Type) : Type := World -> A * World.

Definition ret {A : Type} (a : A) : M A := fun w => (a, w).

Definition bind {A B : Type} (c : M A) (k : A -> M B) : M B :=
  fun w => let (a, w') := c w in k a w'.

(** The world after the events [new] have happened, the file system apart. *)
Definition append_events (w : World) (new : list Event) : World :=
  mkWorld (fs w) (current_level w) (events w ++ new)%list.

Definition emit (e : Event) : M unit :=
  fun w => (tt, append_events w [e]).

Definition logger_set_level (level : LogLevel) : M unit :=
  fun w => (tt, mkWorld (fs w) level (events w)).

Definition logger_log (level : LogLevel) (msg : Message) : M unit :=
  fun w =>
    if level_value level >? level_value (current_level w)
    then (tt, w)
    else emit (EvLog level msg) w.

(** [stat(path, &st)]: [Some m] when it returns 0, with [m] the file type. *)
Definition stat (path : string) : M (option file_type) :=
  fun w => (os_stat (fs w) path, w).

Definition mkdir (path : string) (mode : Z) : M Z :=
  fun w =>
    let evs := (events w ++ [EvMkdir path mode])%list in
    match os_mkdir (fs w) path mode with
    | Some fs' => (0, mkWorld fs' (current_level w) evs)
    | None => (-1, mkWorld (fs w) (current_level w) evs)
    end.

Definition rename (src dst : string) : M Z :=
  fun w =>
    let evs := (events w ++ [EvRename src dst])%list in
    match os_rename (fs w) src dst with
    | Some fs' => (0, mkWorld fs' (current_level w) evs)
    | None => (-1, mkWorld (fs w) (current_level w) evs)
    end.

Definition opendir (path : string) : M (option (list string)) :=
  fun w => (os_readdir (fs w) path, w).

End Engine.

Arguments World {os}.
Arguments M {os} A.

Declare Scope organizer_scope.
Delimit Scope organizer_scope with org.
Notation "x <- c1 ;; c2" := (bind c1 (fun x => c2))
  (at level 61, c1 at next level, right associativity) : organizer_scope.
Notation "' pat <- c1 ;; c2" := (bind c1 (fun x => match x with pat => c2 end))
  (at level 61, pat pattern, c1 at next level, right associativity) : organizer_scope.
Notation "c1 ;; c2" := (bind c1 (fun _ => c2))
  (at level 61, right associativity) : organizer_scope.
Local Open Scope organizer_scope.

(** ** Path builder *)

Definition PATH_MAX : Z := 4096.

(** [snprintf(buffer, size, fmt, ...)], given the fully formatted [text]: the
    buffer receives at most [size - 1] characters (nothing when [size] is 0)
    and the call returns the length the whole text would have needed. *)
Definition snprintf (buffer : string) (size : Z) (text : string) : string * Z :=
  (if size =? 0 then buffer else str_take (Z.to_nat (size - 1)) text,
   strlen text).

(** The cast [(int)out_size] of a [size_t] to a 32-bit [int]. *)
Definition int_of_size_t (n : Z) : Z :=
  (n + 2147483648) mod 4294967296 - 2147483648.

(** [%d] of a C [int]. *)
Definition decimal (i : Z) : string := NilZero.string_of_int (Z.to_int i).

Definition is_separator (c : ascii) : bool :=
  Ascii.eqb c "/" || Ascii.eqb c "\".

(** [join_path(buffer, bufsize, dir, name)]; the result is the new contents of
    [buffer]. *)
Definition join_path (buffer : string) (bufsize : Z) (dir name : string) : string :=
  if bufsize =? 0 then buffer
  else
    let len := strlen dir in
    let needs_sep :=
      if (len >? 0) && (match str_last dir with
                        | Some c => is_separator c
                        | None => false
                        end)
      then false else true in
    if needs_sep
    then fst (snprintf buffer bufsize (dir ++ "/" ++ name))
    else fst (snprintf buffer bufsize (dir ++ name)).

(** ** Configuration *)

Record OrganizerConfig : Type := mkConfig {
  target_dir : option string;   (* [None]: a NULL pointer *)
  dry_run : bool;
  verbose : bool
}.

(** The three path buffers and the [result] flag of [organizer_run]. *)
Record Locals : Type := mkLocals {
  src_path : string;
  category_dir : string;
  dst_path : string;
  result : Z
}.

Definition set_src_path (l : Locals) (s : string) : Locals :=
  mkLocals s (category_dir l) (dst_path l) (result l).
Definition set_category_dir (l : Locals) (s : string) : Locals :=
  mkLocals (src_path l) s (dst_path l) (result l).
Definition set_dst_path (l : Locals) (s : string) : Locals :=
  mkLocals (src_path l) (category_dir l) s (result l).
Definition set_result (l : Locals) (r : Z) : Locals :=
  mkLocals (src_path l) (category_dir l) (dst_path l) r.

Section Organizer.

Context `{os : OS}.

(** ** Directory provisioner *)

(** Returns the status and the new contents of [out_path]. *)
Definition ensure_directory_exists (base_dir category : string)
    (out_path : string) (out_size : Z) : M (Z * string) :=
  let out_path := join_path out_path out_size base_dir category in
  st <- stat out_path ;;
  match st with
  | Some m =>
      if S_ISDIR m then ret (0, out_path)
      else
        logger_log LOG_LEVEL_ERROR (MsgExistsNotDirectory out_path) ;;
        ret (-1, out_path)
  | None =>
      (* Try to create the directory. *)
      rc <- mkdir out_path 493 (* 0755 *) ;;
      if negb (rc =? 0) then
        logger_log LOG_LEVEL_ERROR (MsgCreateFailed out_path) ;;
        ret (-1, out_path)
      else
        logger_log LOG_LEVEL_INFO (MsgCreated out_path) ;;
        ret (0, out_path)
  end.

(** ** Unique destination resolver *)

(** The text of the [i]-th suffixed candidate, ["%s/%s_%d%s"]. *)
Definition candidate (category_dir name : string) (i : Z) (ext : string) : string :=
  category_dir ++ "/" ++ name ++ "_" ++ decimal i ++ ext.

(** Splitting [filename] into the [name] and [ext] buffers (both
    [char [PATH_MAX]]); [ext] keeps its dot. *)
Definition split_name (filename : string) : string * string :=
  match strrchr filename "." with
  | None | Some O =>
      (* No extension. *)
      (str_take (Z.to_nat (PATH_MAX - 1)) filename, "")
  | Some dot =>
      let base_len :=
        if Z.of_nat dot >=? PATH_MAX then Z.to_nat (PATH_MAX - 1) else dot in
      (str_take base_len filename,
       str_take (Z.to_nat (PATH_MAX - 1)) (str_drop dot filename))
  end.

(** The loop [for (int i = 1; i < 10000; ++i)], started at [i] with [fuel]
    iterations left.  Returns whether a free name was found and the contents
    of [out_path]. *)
Fixpoint suffix_loop (fuel : nat) (i : Z) (category_dir name ext : string)
    (out_path : string) (out_size : Z) : M (bool * string) :=
  match fuel with
  | O => ret (false, out_path)
  | S fuel' =>
      if i <? 10000 then
        let (buf, n) := snprintf out_path out_size (candidate category_dir name i ext) in
        if n >=? int_of_size_t out_size then
          (* truncated; try next *)
          suffix_loop fuel' (i + 1) category_dir name ext buf out_size
        else
          st <- stat buf ;;
          match st with
          | None => ret (true, buf)   (* found free name *)
          | Some _ => suffix_loop fuel' (i + 1) category_dir name ext buf out_size
          end
      else ret (false, out_path)
  end.

Definition build_unique_destination (category_dir filename : string)
    (out_path : string) (out_size : Z) : M (Z * string) :=
  (* First try plain name. *)
  let out_path := join_path out_path out_size category_dir filename in
  st <- stat out_path ;;
  match st with
  | None => ret (0, out_path)   (* free *)
  | Some _ =>
      let (name, ext) := split_name filename in
      '(found, out_path) <- suffix_loop (Z.to_nat 9999) 1 category_dir name ext out_path out_size ;;
      if (found : bool) then ret (0, out_path)
      else
        logger_log LOG_LEVEL_ERROR (MsgNoUniqueName filename category_dir) ;;
        ret (-1, out_path)
  end.

(** ** Organize orchestrator *)

(** One iteration of the [readdir] loop for the entry called [name]. *)
Definition scan_entry (config : OrganizerConfig) (base_dir name : string)
    (l : Locals) : M Locals :=
  if String.eqb name "." || String.eqb name ".." then ret l
  else
    let l := set_src_path l (join_path (src_path l) PATH_MAX base_dir name) in
    st <- stat (src_path l) ;;
    match st with
    | None =>
        logger_log LOG_LEVEL_WARN (MsgSkipCannotStat (src_path l)) ;;
        ret l
    | Some m =>
        if negb (S_ISREG m) then
          (if verbose config
           then logger_log LOG_LEVEL_DEBUG (MsgSkipNonRegular (src_path l))
           else ret tt) ;;
          ret l   (* Only organize regular files *)
        else
          let ext := get_extension name in
          let category := category_for_extension ext in
          '(rc, buf) <- ensure_directory_exists base_dir category
                          (category_dir l) PATH_MAX ;;
          let l := set_category_dir l buf in
          if negb (rc =? 0) then ret (set_result l 1)
          else
            '(rc, buf) <- build_unique_destination (category_dir l) name
                            (dst_path l) PATH_MAX ;;
            let l := set_dst_path l buf in
            if negb (rc =? 0) then ret (set_result l 1)
            else if dry_run config then
              logger_log LOG_LEVEL_INFO (MsgDryRunMove (src_path l) (dst_path l)) ;;
              ret l
            else
              rc <- rename (src_path l) (dst_path l) ;;
              if negb (rc =? 0) then
                logger_log LOG_LEVEL_ERROR (MsgMoveFailed (src_path l) (dst_path l)) ;;
                ret (set_result l 1)
              else
                logger_log LOG_LEVEL_INFO (MsgMoved (src_path l) (dst_path l)) ;;
                ret l
    end.

(** The [while ((entry = readdir(dir)) != NULL)] loop over the names the
    directory stream returns. *)
Fixpoint scan (config : OrganizerConfig) (base_dir : string)
    (entries : list string) (l : Locals) : M Locals :=
  match entries with
  | [] => ret l
  | name :: rest =>
      l' <- scan_entry config base_dir name l ;;
      scan config base_dir rest l'
  end.

(** The locals at loop entry: the buffers hold nothing yet, [result = 0]. *)
Definition initial_locals : Locals := mkLocals "" "" "" 0.

(** [config = None] is the NULL configuration pointer. *)
Definition organizer_run (config : option OrganizerConfig) : M Z :=
  match config with
  | None =>
      logger_log LOG_LEVEL_ERROR MsgInvalidConfiguration ;; ret 1
  | Some cfg =>
      match target_dir cfg with
      | None =>
          logger_log LOG_LEVEL_ERROR MsgInvalidConfiguration ;; ret 1
      | Some base_dir =>
          st <- stat base_dir ;;
          match st with
          | None =>
              logger_log LOG_LEVEL_ERROR (MsgCannotAccess base_dir) ;; ret 1
          | Some m =>
              if negb (S_ISDIR m) then
                logger_log LOG_LEVEL_ERROR (MsgNotADirectory base_dir) ;; ret 1
              else
                dir <- opendir base_dir ;;
                match dir with
                | None =>
                    logger_log LOG_LEVEL_ERROR (MsgOpenFailed base_dir) ;; ret 1
                | Some entries =>
                    logger_log LOG_LEVEL_INFO
                      (MsgOrganizing base_dir (dry_run cfg)) ;;
                    l <- scan cfg base_dir entries initial_locals ;;
                    (* closedir(dir): nothing of the world changes *)
                    ret (result l)
                end
          end
      end
  end.

End Organizer.

(** ** A concrete file system

    Paths are looked up as whole strings.  [stat] follows symbolic links (at
    most [SYMLOOP_MAX] of them), [mkdir] refuses an existing path, [rename]
    moves the entry found at the source path itself (a link stays a link), and
    both refuse the paths in [denied] (a permission error).  [dirents] is the
    listing each directory stream returns. *)

Inductive inode : Type :=
  | IRegular
  | IDirectory
  | ISymlink (target : string)
  | ICharDevice
  | IBlockDevice
  | IFifo
  | ISocket.

Record Disk : Type := mkDisk {
  inode_at : string -> option inode;
  dirents : string -> option (list string);
  denied : string -> bool
}.

Definition SYMLOOP_MAX : nat := 40.

Fixpoint follow (fuel : nat) (d : Disk) (path : string) : option file_type :=
  match inode_at d path with
  | None => None
  | Some IRegular => Some S_IFREG
  | Some IDirectory => Some S_IFDIR
  | Some ICharDevice => Some S_IFCHR
  | Some IBlockDevice => Some S_IFBLK
  | Some IFifo => Some S_IFIFO
  | Some ISocket => Some S_IFSOCK
  | Some (ISymlink target) =>
      match fuel with
      | O => None
      | S fuel' => follow fuel' d target
      end
  end.

Definition disk_stat (d : Disk) (path : string) : option file_type :=
  follow SYMLOOP_MAX d path.

Definition disk_set (d : Disk) (path : string) (v : option inode) : Disk :=
  mkDisk (fun q => if String.eqb q path then v else inode_at d q)
         (dirents d) (denied d).

Definition disk_mkdir (d : Disk) (path : string) (mode : Z) : option Disk :=
  if denied d path then None
  else match inode_at d path with
       | Some _ => None
       | None => Some (disk_set d path (Some IDirectory))
       end.

Definition disk_rename (d : Disk) (src dst : string) : option Disk :=
  if denied d src || denied d dst then None
  else match inode_at d src with
       | None => None
       | Some n => Some (disk_set (disk_set d src None) dst (Some n))
       end.

Definition disk_readdir (d : Disk) (path : string) : option (list string) :=
  dirents d path.

Definition DiskOS : OS :=
  {| FS := Disk;
     os_stat := disk_stat;
     os_mkdir := disk_mkdir;
     os_rename := disk_rename;
     os_readdir := disk_readdir |}.

(** A disk given by a finite table of inodes and the listing of one
    directory. *)
Fixpoint assoc {A : Type} (table : list (string * A)) (key : string) : option A :=
  match table with
  | [] => None
  | (k, v) :: rest => if String.eqb key k then Some v else assoc rest key
  end.

Definition disk_of (table : list (string * inode)) (dir : string)
    (names : list string) (locked : list string) : Disk :=
  mkDisk (assoc table)
         (fun p => if String.eqb p dir then Some names else None)
         (fun p => existsb (String.eqb p) locked).

Definition boot (d : Disk) : @World DiskOS := mkWorld (os := DiskOS) d LOG_LEVEL_INFO [].

(** ** Vocabulary of the statements *)

(** A table entry is well placed: scanning for its key finds its category,
    and the key fits the classifier's buffer. *)
Definition entry_ok (e : ExtensionCategory) : bool :=
  String.eqb (table_scan (ext e) EXTENSION_TABLE) (category e)
  && (0 <? strlen (ext e)) && (strlen (ext e) <? TMP_SIZE).

Definition is_rename (e : Event) : bool :=
  match e with
  | EvRename _ _ => true
  | _ => false
  end.

(** Lines printed at severity ERROR. *)
Definition is_error (e : Event) : bool :=
  match e with
  | EvLog LOG_LEVEL_ERROR _ => true
  | _ => false
  end.

(** The candidate text fits a buffer of [size] bytes, as the loop tests it. *)
Definition fits (text : string) (size : Z) : Prop :=
  strlen text < int_of_size_t size.

(** What [join_path] writes when the buffer is large enough. *)
Definition joined (dir name : string) : string :=
  match str_last dir with
  | Some c => if is_separator c then dir ++ name else dir ++ "/" ++ name
  | None => dir ++ "/" ++ name
  end.

(** From [w] to [w'] exactly the events [new] happened, and the log level was
    left alone. *)
Definition effect `{os : OS} (w w' : World) (new : list Event) : Prop :=
  current_level w' = current_level w /\ events w' = (events w ++ new)%list.

(** The failure flag follows the ERROR lines: it is raised to 1 exactly when
    one was printed, and untouched otherwise. *)
Definition flag_tracks (before after : Z) (new : list Event) : Prop :=
  (after = before /\ existsb is_error new = false) \/
  (after = 1 /\ existsb is_error new = true).

(** The configurations [organizer_run] turns away: a NULL configuration or
    target, a target that cannot be stat'ed, or one that is not a
    directory. *)
Definition rejected `{os : OS} (config : option OrganizerConfig) (w : World) : Prop :=
  match config with
  | None => True
  | Some cfg =>
      match target_dir cfg with
      | None => True
      | Some base_dir =>
          match os_stat (fs w) base_dir with
          | None => True
          | Some m => S_ISDIR m = false
          end
      end
  end.

(** The world in which the scan starts: the banner line has been printed. *)
Definition scan_start `{os : OS} (cfg : OrganizerConfig) (base_dir : string)
    (w : World) : World :=
  snd (logger_log LOG_LEVEL_INFO (MsgOrganizing base_dir (dry_run cfg)) w).

(** ** Directories used as examples *)

Fixpoint str_repeat (c : ascii) (n : nat) : string :=
  match n with
  | O => EmptyString
  | S k => String c (str_repeat c k)
  end.

(** The integers [lo], [lo + 1], ..., [lo + n - 1]. *)
Fixpoint Z_range (lo : Z) (n : nat) : list Z :=
  match n with
  | O => []
  | S k => lo :: Z_range (lo + 1) k
  end.

(** [d] holds a picture, a text file, a file without extension and a
    sub-directory; nothing is organised yet. *)
Definition fresh_disk : Disk :=
  disk_of [("d", IDirectory); ("d/a.jpg", IRegular); ("d/b.txt", IRegular);
           ("d/c", IRegular); ("d/notes", IDirectory)]
          "d" ["."; ".."; "a.jpg"; "b.txt"; "c"; "notes"] [].

(** [d] holds a symbolic link to a regular file elsewhere. *)
Definition link_disk : Disk :=
  disk_of [("d", IDirectory); ("/etc/hostname", IRegular);
           ("d/link.txt", ISymlink "/etc/hostname")]
          "d" ["."; ".."; "link.txt"] [].

(** [d/Documents] already holds [report.txt] and [report_1.txt]. *)
Definition taken_disk : Disk :=
  disk_of [("d", IDirectory); ("d/report.txt", IRegular);
           ("d/Documents", IDirectory);
           ("d/Documents/report.txt", IRegular);
           ("d/Documents/report_1.txt", IRegular)]
          "d" ["."; ".."; "report.txt"; "Documents"] [].

(** [d/Images] may not be created (permission denied); [d/Documents] may. *)
Definition locked_disk : Disk :=
  disk_of [("d", IDirectory); ("d/a.jpg", IRegular); ("d/b.txt", IRegular)]
          "d" ["."; ".."; "a.jpg"; "b.txt"] ["d/Images"].

(** A regular file sits where the category directory [d/Images] should be. *)
Definition conflict_disk : Disk :=
  disk_of [("d", IDirectory); ("d/a.jpg", IRegular); ("d/Images", IRegular)]
          "d" ["."; ".."; "a.jpg"; "Images"] [].

(** Every path exists except those in [free]: [d] and [d/Documents] are
    directories, all the rest regular files. *)
Definition crowded_disk (free : string -> bool) : Disk :=
  mkDisk (fun p => if free p then None
                   else if String.eqb p "d" || String.eqb p "d/Documents"
                        then Some IDirectory else Some IRegular)
         (fun p => if String.eqb p "d" then Some ["."; ".."; "report.txt"] else None)
         (fun _ => false).




(** A target directory whose path is 4090 characters long. *)
Definition long_dir : string := String "/" (str_repeat "a" (Z.to_nat 4089)).

(** The long target directory, empty. *)
Definition long_disk : Disk :=
  mkDisk (fun p => if String.eqb p long_dir then Some IDirectory else None)
         (fun p => if String.eqb p long_dir then Some ["."; ".."] else None)
         (fun _ => false).

(** The configurations of the examples. *)
Definition move_d : OrganizerConfig := mkConfig (Some "d") false false.
Definition dry_d : OrganizerConfig := mkConfig (Some "d") true false.

(** ** Command line ([main.c]) *)

(** What [main] itself prints: the [fprintf(stderr, ...)] lines of the
    argument loop, the usage text, and the closing line it sends through
    [logger_log] (kept here, with [main]'s own output, rather than among the
    organizer's events). *)
Inductive Console : Type :=
  | ConMissingArgument (arg : string)
  | ConUnknownOption (arg : string)
  | ConUsage (progname : string)
  | ConFailed (rc : Z).

(** Outcome of the argument loop: an early [return], or the configuration
    the organizer is run with. *)
Inductive Parsed : Type :=
  | ParseExit (rc : Z) (out : list Console)
  | ParseRun (config : OrganizerConfig).

Definition set_target_dir (c : OrganizerConfig) (dir : string) : OrganizerConfig :=
  mkConfig (Some dir) (dry_run c) (verbose c).
Definition set_dry_run (c : OrganizerConfig) : OrganizerConfig :=
  mkConfig (target_dir c) true (verbose c).
Definition set_verbose (c : OrganizerConfig) : OrganizerConfig :=
  mkConfig (target_dir c) (dry_run c) true.

(** [arg[0] == '-'] *)
Definition starts_with_dash (arg : string) : bool :=
  match arg with
  | String c _ => Ascii.eqb c "-"
  | EmptyString => false
  end.

(** The loop [for (int i = 1; i < argc; ++i)] over the arguments that follow
    [argv[0]]. *)
Fixpoint parse_args (progname : string) (args : list string)
    (config : OrganizerConfig) : Parsed :=
  match args with
  | [] => ParseRun config
  | arg :: rest =>
      if String.eqb arg "-h" || String.eqb arg "--help" then
        ParseExit 0 [ConUsage progname]
      else if String.eqb arg "-n" || String.eqb arg "--dry-run" then
        parse_args progname rest (set_dry_run config)
      else if String.eqb arg "-v" || String.eqb arg "--verbose" then
        parse_args progname rest (set_verbose config)
      else if String.eqb arg "-d" || String.eqb arg "--dir" then
        match rest with
        | [] => ParseExit 1 [ConMissingArgument arg; ConUsage progname]
        | dir :: rest' => parse_args progname rest' (set_target_dir config dir)
        end
      else if starts_with_dash arg then
        ParseExit 1 [ConUnknownOption arg; ConUsage progname]
      else
        (* Positional directory argument overrides previous -d/--dir. *)
        parse_args progname rest (set_target_dir config arg)
  end.

(** The configuration [main] starts from. *)
Definition default_config : OrganizerConfig := mkConfig (Some ".") false false.

(** [main(argc, argv)], with [argv] as a list: exit status and console
    output. *)
Definition main `{os : OS} (argv : list string) : M (Z * list Console) :=
  match parse_args (hd "" argv) (tl argv) default_config with
  | ParseExit rc out => ret (rc, out)
  | ParseRun config =>
      (if verbose config
       then logger_set_level LOG_LEVEL_DEBUG
       else logger_set_level LOG_LEVEL_INFO) ;;
      rc <- organizer_run (Some config) ;;
      if negb (rc =? 0) then
        fun w =>
          if level_value LOG_LEVEL_ERROR >? level_value (current_level w)
          then ((rc, []), w)
          else ((rc, [ConFailed rc]), w)
      else ret (rc, [])
  end.

(** ** Vocabulary of the further statements *)

(** System calls that change the file system. *)
Definition is_mutation (e : Event) : bool :=
  match e with
  | EvMkdir _ _ | EvRename _ _ => true
  | EvLog _ _ => false
  end.

Definition is_mkdir (e : Event) : bool :=
  match e with
  | EvMkdir _ _ => true
  | _ => false
  end.

(** The directory names the classifier can answer. *)
Definition CATEGORY_NAMES : list string :=
  [ "Images"; "Documents"; "Spreadsheets"; "Presentations"; "Audio"; "Video";
    "Archives"; "Source"; "Other" ].

(** The category directory of the entry [name] of [base_dir], as the
    provisioner writes it. *)
Definition category_path (base_dir name : string) : string :=
  join_path "" PATH_MAX base_dir (category_for_extension (get_extension name)).

(** What an iteration for the entry [name] may do: create that entry's
    category directory with mode 0755, or, outside a dry run, rename the
    entry's own path to the plain or a suffixed destination inside that
    directory; and print. *)
Definition entry_event_ok (cfg : OrganizerConfig) (base_dir name : string)
    (e : Event) : Prop :=
  match e with
  | EvMkdir p mode =>
      p = category_path base_dir name /\ mode = 493
      /\ In (category_for_extension (get_extension name)) CATEGORY_NAMES
  | EvRename src dst =>
      dry_run cfg = false
      /\ String.eqb name "." || String.eqb name ".." = false
      /\ src = join_path "" PATH_MAX base_dir name
      /\ (dst = join_path "" PATH_MAX (category_path base_dir name) name
          \/ exists k, 1 <= k < 10000
               /\ dst = candidate (category_path base_dir name)
                          (fst (split_name name)) k (snd (split_name name)))
  | EvLog _ _ => True
  end.

Definition run_event_ok (cfg : OrganizerConfig) (base_dir : string)
    (entries : list string) (e : Event) : Prop :=
  is_mutation e = false \/
  exists name, In name entries /\ entry_event_ok cfg base_dir name e.

(** Two worlds with the same file system (the logger's level and the events
    so far may differ). *)
Definition same_disk `{os : OS} (w1 w2 : World) : Prop := fs w1 = fs w2.

(** The events of [new] that change the file system, in order. *)
Definition mutations (new : list Event) : list Event := filter is_mutation new.

(** Two worlds a run cannot tell apart: the same file system, and the same
    mutating calls issued so far. *)
Definition alike `{os : OS} (w1 w2 : World) : Prop :=
  fs w1 = fs w2 /\ mutations (events w1) = mutations (events w2).

(** Two computations that, started in worlds alike, return the same value
    and end in worlds alike. *)
Definition agree `{os : OS} {A : Type} (c1 c2 : M A) : Prop :=
  forall w1 w2, alike w1 w2 ->
                fst (c1 w1) = fst (c2 w2) /\ alike (snd (c1 w1)) (snd (c2 w2)).


(** [d/Images] is a symbolic link whose target does not exist. *)
Definition dangling_category_disk : Disk :=
  disk_of [("d", IDirectory); ("d/a.jpg", IRegular);
           ("d/Images", ISymlink "/nowhere")]
          "d" ["."; ".."; "a.jpg"; "Images"] [].

(** ** When an entry fails

    The three ways the processing of the entry [name] of [base_dir] can
    fail, read off the answers of the system calls on the file system [f] in
    which the entry is reached, not off the flag. *)

Section Verdict.

Context `{os : OS}.

Variables (cfg : OrganizerConfig) (base_dir name : string).

Definition entry_src : string := join_path "" PATH_MAX base_dir name.

Definition entry_first : string :=
  join_path "" PATH_MAX (category_path base_dir name) name.

Definition entry_candidate (k : Z) : string :=
  candidate (category_path base_dir name)
    (fst (split_name name)) k (snd (split_name name)).

(** The entry requires action: it is not [.] or [..] and [stat] reports a
    regular file. *)
Definition needs_action (f : FS) : Prop :=
  String.eqb name "." || String.eqb name ".." = false
  /\ exists m, os_stat f entry_src = Some m /\ S_ISREG m = true.

(** Provisioning fails: the category path is something else than a
    directory, or it is absent and [mkdir] fails. *)
Definition provisioning_fails (f : FS) : Prop :=
  (exists md, os_stat f (category_path base_dir name) = Some md /\ S_ISDIR md = false)
  \/ (os_stat f (category_path base_dir name) = None
      /\ os_mkdir f (category_path base_dir name) 493 = None).

(** Provisioning succeeds and leaves the file system [f1]. *)
Definition provisioned (f f1 : FS) : Prop :=
  (exists md, os_stat f (category_path base_dir name) = Some md
              /\ S_ISDIR md = true /\ f1 = f)
  \/ (os_stat f (category_path base_dir name) = None
      /\ os_mkdir f (category_path base_dir name) 493 = Some f1).

(** Resolution fails: the plain destination and every candidate 1..9999
    that fits the buffer are taken. *)
Definition resolution_fails (f1 : FS) : Prop :=
  os_stat f1 entry_first <> None
  /\ forall j, 1 <= j < 10000 -> fits (entry_candidate j) PATH_MAX ->
               os_stat f1 (entry_candidate j) <> None.

(** Resolution succeeds with [dst]: the plain destination if [stat] finds
    nothing there, else the first candidate that fits and where [stat]
    finds nothing. *)
Definition resolved (f1 : FS) (dst : string) : Prop :=
  (os_stat f1 entry_first = None /\ dst = entry_first)
  \/ (os_stat f1 entry_first <> None
      /\ exists k, 1 <= k < 10000 /\ dst = entry_candidate k
                   /\ fits (entry_candidate k) PATH_MAX
                   /\ os_stat f1 (entry_candidate k) = None
                   /\ forall j, 1 <= j < k -> fits (entry_candidate j) PATH_MAX ->
                                os_stat f1 (entry_candidate j) <> None).

(** The entry requires action and one of provisioning, resolution or (outside
    a dry run) the rename itself fails. *)
Definition entry_failure (f : FS) : Prop :=
  needs_action f
  /\ (provisioning_fails f
      \/ exists f1, provisioned f f1
           /\ (resolution_fails f1
               \/ (dry_run cfg = false
                   /\ exists dst, resolved f1 dst
                                  /\ os_rename f1 entry_src dst = None))).

End Verdict.

(** Some entry of the stream fails, each judged on the file system in which
    the scan reaches it. *)
Fixpoint any_failure `{os : OS} (cfg : OrganizerConfig) (base_dir : string)
    (entries : list string) (l : Locals) (w : World) : Prop :=
  match entries with
  | [] => False
  | name :: rest =>
      entry_failure cfg base_dir name (fs w)
      \/ any_failure cfg base_dir rest
           (fst (scan_entry cfg base_dir name l w))
           (snd (scan_entry cfg base_dir name l w))
  end.

(** * Properties *)

(** ** The string functions on a few names *)

Example get_extension_photo : get_extension "photo.JPG" = Some "JPG".
Proof. reflexivity. Qed.

Example get_extension_dotfile : get_extension ".bashrc" = None.
Proof. reflexivity. Qed.

Example get_extension_tarball : get_extension "a.tar.gz" = Some "gz".
Proof. reflexivity. Qed.

Example category_photo : category_for_extension (get_extension "photo.JPG") = "Images".
Proof. reflexivity. Qed.

Example category_trailing_dot : category_for_extension (get_extension "notes.") = "Other".
Proof. reflexivity. Qed.

Example join_path_plain : join_path "" PATH_MAX "dir" "a.txt" = "dir/a.txt".
Proof. reflexivity. Qed.

Example join_path_slash : join_path "" PATH_MAX "dir/" "a.txt" = "dir/a.txt".
Proof. reflexivity. Qed.

Example join_path_small_buffer : join_path "" 6 "dir" "a.txt" = "dir/a".
Proof. reflexivity. Qed.


(** ** Strings *)

Lemma length_append (a b : string) :
  String.length (a ++ b) = (String.length a + String.length b)%nat.
Proof. induction a as [|c a IH]; simpl; [reflexivity | now rewrite IH]. Qed.

Lemma strlen_append (a b : string) : strlen (a ++ b) = strlen a + strlen b.
Proof. unfold strlen. rewrite length_append. lia. Qed.

Lemma strlen_nonneg (s : string) : 0 <= strlen s.
Proof. unfold strlen. lia. Qed.

Lemma length_to_lowercase (s : string) :
  String.length (to_lowercase s) = String.length s.
Proof. induction s as [|c s IH]; simpl; [reflexivity | now rewrite IH]. Qed.

Lemma str_take_all (n : nat) (s : string) :
  (String.length s <= n)%nat -> str_take n s = s.
Proof.
  revert n. induction s as [|c s IH]; intros [|n] Hn; simpl in *;
    try reflexivity; try lia.
  f_equal. apply IH. lia.
Qed.

Lemma strrchr_after_stem (stem e : string) :
  strrchr e "." = None ->
  strrchr (stem ++ String "." e) "." = Some (String.length stem).
Proof.
  intros He. induction stem as [|c stem IH]; simpl.
  - now rewrite He.
  - simpl in IH. now rewrite IH.
Qed.

Lemma str_drop_after_stem (stem e : string) :
  str_drop (S (String.length stem)) (stem ++ String "." e) = e.
Proof.
  induction stem as [|c stem IH]; simpl.
  - now destruct e.
  - exact IH.
Qed.

(** A name [stem.e] with a non-empty stem and no further dot in [e] has the
    extension [e]. *)
Lemma get_extension_split (stem e : string) :
  stem <> "" -> strrchr e "." = None ->
  get_extension (stem ++ "." ++ e) = Some e.
Proof.
  intros Hstem He. unfold get_extension. simpl.
  rewrite (strrchr_after_stem stem e He).
  destruct stem as [|c stem]; [congruence|].
  cbn [String.length]. f_equal. apply (str_drop_after_stem (String c stem) e).
Qed.

(** ** Extension classifier *)

Lemma table_entries_ok : forallb entry_ok EXTENSION_TABLE = true.
Proof. vm_compute. reflexivity. Qed.

Lemma table_scan_miss (tmp : string) (table : list ExtensionCategory) :
  (forall entry, In entry table -> tmp <> ext entry) ->
  table_scan tmp table = DEFAULT_CATEGORY.
Proof.
  induction table as [|e table IH]; intros Hmiss; simpl; [reflexivity|].
  destruct (String.eqb_spec tmp (ext e)) as [Heq|_].
  - exfalso. apply (Hmiss e); [now left | exact Heq].
  - apply IH. intros entry Hin. apply Hmiss. now right.
Qed.

Lemma category_of_match (e : string) (entry : ExtensionCategory) :
  In entry EXTENSION_TABLE -> to_lowercase e = ext entry ->
  category_for_extension (Some e) = category entry.
Proof.
  intros Hin Hlow.
  pose proof (proj1 (forallb_forall _ _) table_entries_ok entry Hin) as Hok.
  unfold entry_ok in Hok.
  apply andb_true_iff in Hok as [Hok Hlt].
  apply andb_true_iff in Hok as [Hscan Hpos].
  apply String.eqb_eq in Hscan.
  assert (Hlen : strlen e = strlen (ext entry)).
  { unfold strlen. now rewrite <- Hlow, length_to_lowercase. }
  unfold category_for_extension. cbv zeta. rewrite Hlen, Hlow.
  apply Z.ltb_lt in Hpos, Hlt.
  destruct (Z.eqb_spec (strlen (ext entry)) 0) as [E|_]; [lia|].
  destruct (Z.geb_spec (strlen (ext entry)) TMP_SIZE) as [E|_]; [lia|].
  exact Hscan.
Qed.

Lemma category_default (e : option string) :
  match e with
  | None => True
  | Some x =>
      x = "" \/ strlen x >= TMP_SIZE \/
      (forall entry, In entry EXTENSION_TABLE -> to_lowercase x <> ext entry)
  end ->
  category_for_extension e = "Other".
Proof.
  destruct e as [x|]; [|reflexivity].
  intros [Hempty | [Hlong | Hmiss]]; unfold category_for_extension; cbv zeta.
  - subst x. reflexivity.
  - destruct (Z.eqb_spec (strlen x) 0); [reflexivity|].
    destruct (Z.geb_spec (strlen x) TMP_SIZE); [reflexivity | lia].
  - destruct ((strlen x =? 0) || (strlen x >=? TMP_SIZE)); [reflexivity|].
    now apply table_scan_miss.
Qed.

(** C2.  A file name [stem.e] (non-empty stem, [e] the part after the last
    dot) whose extension equals a table key after ASCII lowercasing is
    classified as that entry's category; a name with no extension (no dot, or
    the only dot in first position), or whose extension is empty, has 64
    characters or more, or matches no table key, is classified as "Other". *)
Theorem category_for_extension_table :
  (forall stem e entry,
      stem <> "" -> strrchr e "." = None ->
      In entry EXTENSION_TABLE -> to_lowercase e = ext entry ->
      category_for_extension (get_extension (stem ++ "." ++ e)) = category entry)
  /\
  (forall name,
      (strrchr name "." = None \/ strrchr name "." = Some 0%nat ->
       get_extension name = None) /\
      (match get_extension name with
       | None => True
       | Some x =>
           x = "" \/ strlen x >= TMP_SIZE \/
           (forall entry, In entry EXTENSION_TABLE -> to_lowercase x <> ext entry)
       end ->
       category_for_extension (get_extension name) = "Other")).
Proof.
  split.
  - intros stem e entry Hstem Hdot Hin Hlow.
    rewrite (get_extension_split stem e Hstem Hdot).
    now apply category_of_match.
  - intros name. split.
    + unfold get_extension. now intros [-> | ->].
    + apply category_default.
Qed.

Lemma category_for_extension_table_witness :
  category_for_extension (get_extension "holiday.JPG") = "Images"
  /\ category_for_extension (get_extension "report.txt") = "Documents"
  /\ category_for_extension (get_extension ".bashrc") = "Other"
  /\ category_for_extension (get_extension "data.xyz") = "Other".
Proof.
  destruct category_for_extension_table as [Hhit Hmiss].
  split; [|split; [|split]].
  - apply (Hhit "holiday" "JPG" (mkExt "jpg" "Images")).
    + discriminate.
    + reflexivity.
    + simpl. tauto.
    + reflexivity.
  - apply (Hhit "report" "txt" (mkExt "txt" "Documents")).
    + discriminate.
    + reflexivity.
    + simpl. tauto.
    + reflexivity.
  - apply (proj2 (Hmiss ".bashrc")). exact I.
  - apply (proj2 (Hmiss "data.xyz")). right. right.
    intros entry Hin Heq.
    pose proof (proj1 (forallb_forall (fun en => negb (String.eqb "xyz" (ext en)))
                                      EXTENSION_TABLE)
                  eq_refl entry Hin) as Hne.
    change (to_lowercase (str_drop 5 "data.xyz")) with "xyz" in Heq.
    rewrite Heq, String.eqb_refl in Hne. discriminate.
Defined.

(** ** Logger and system calls *)

Section EngineFacts.

Context `{os : OS}.

Lemma logger_log_error (msg : Message) (w : World) :
  logger_log LOG_LEVEL_ERROR msg w = (tt, append_events w [EvLog LOG_LEVEL_ERROR msg]).
Proof. unfold logger_log. now destruct (current_level w). Qed.

Lemma logger_log_cases (level : LogLevel) (msg : Message) (w : World) :
  logger_log level msg w = (tt, w) \/
  logger_log level msg w = (tt, append_events w [EvLog level msg]).
Proof.
  unfold logger_log.
  destruct (level_value level >? level_value (current_level w)); [now left | now right].
Qed.

End EngineFacts.

(** ** Effects of the three stages *)

Section StageFacts.

Context `{os : OS}.

Lemma effect_refl (w : World) : effect w w [].
Proof. split; [reflexivity | now rewrite app_nil_r]. Qed.

Lemma effect_append (w : World) (new : list Event) :
  effect w (append_events w new) new.
Proof. now split. Qed.

Lemma effect_trans (w1 w2 w3 : World) (a b : list Event) :
  effect w1 w2 a -> effect w2 w3 b -> effect w1 w3 (a ++ b).
Proof.
  intros [L1 E1] [L2 E2]. split; [congruence|].
  now rewrite E2, E1, app_assoc.
Qed.

(** The provisioner: its status, what it prints and which calls it issues. *)
Lemma ensure_directory_exists_effect (base_dir category out_path : string)
    (out_size : Z) (w : World) :
  exists rc w' new,
    ensure_directory_exists base_dir category out_path out_size w
      = ((rc, join_path out_path out_size base_dir category), w')
    /\ effect w w' new
    /\ existsb is_rename new = false
    /\ ((rc = 0 /\ existsb is_error new = false) \/
        (rc = -1 /\ existsb is_error new = true /\ fs w' = fs w)).
Proof.
  unfold ensure_directory_exists, bind, stat, ret, mkdir.
  set (p := join_path out_path out_size base_dir category).
  destruct (os_stat (fs w) p) as [m|] eqn:Hstat.
  - destruct (S_ISDIR m).
    + exists 0, w, []. repeat split; try apply effect_refl; auto.
    + rewrite logger_log_error.
      exists (-1), (append_events w [EvLog LOG_LEVEL_ERROR (MsgExistsNotDirectory p)]),
             [EvLog LOG_LEVEL_ERROR (MsgExistsNotDirectory p)].
      split; [reflexivity|]. split; [apply effect_append|]. split; [reflexivity|].
      right. auto.
  - destruct (os_mkdir (fs w) p 493) as [fs'|] eqn:Hmk; simpl.
    + match goal with |- context [logger_log ?l ?m ?x] =>
        destruct (logger_log_cases l m x) as [-> | ->] end.
      * exists 0, (mkWorld fs' (current_level w) (events w ++ [EvMkdir p 493])), [EvMkdir p 493].
        split; [reflexivity|]. split; [now split|]. split; [reflexivity|]. left. auto.
      * exists 0, (append_events (mkWorld fs' (current_level w) (events w ++ [EvMkdir p 493]))
                     [EvLog LOG_LEVEL_INFO (MsgCreated p)]),
               [EvMkdir p 493; EvLog LOG_LEVEL_INFO (MsgCreated p)].
        split; [reflexivity|]. split.
        { split; [reflexivity|]. simpl. now rewrite <- app_assoc. }
        split; [reflexivity|]. left. auto.
    + rewrite logger_log_error.
      exists (-1), (append_events (mkWorld (fs w) (current_level w) (events w ++ [EvMkdir p 493]))
                      [EvLog LOG_LEVEL_ERROR (MsgCreateFailed p)]),
             [EvMkdir p 493; EvLog LOG_LEVEL_ERROR (MsgCreateFailed p)].
      split; [reflexivity|]. split.
      { split; [reflexivity|]. simpl. now rewrite <- app_assoc. }
      split; [reflexivity|]. right. auto.
Qed.

(** The suffix search only looks: the world is as before. *)
Lemma suffix_loop_pure (fuel : nat) :
  forall (i : Z) (cdir name sfx out_path : string) (out_size : Z) (w : World),
    snd (suffix_loop fuel i cdir name sfx out_path out_size w) = w.
Proof.
  induction fuel as [|fuel IH]; intros; simpl; [reflexivity|].
  destruct (i <? 10000); [|reflexivity].
  destruct (strlen (candidate cdir name i sfx) >=? int_of_size_t out_size).
  - apply IH.
  - unfold bind, stat, ret.
    destruct (os_stat (fs w) _); [apply IH | reflexivity].
Qed.

Lemma build_unique_destination_effect (cdir filename out_path : string)
    (out_size : Z) (w : World) :
  exists rc p w',
    build_unique_destination cdir filename out_path out_size w = ((rc, p), w')
    /\ ((rc = 0 /\ w' = w) \/
        (rc = -1 /\
         w' = append_events w
                [EvLog LOG_LEVEL_ERROR (MsgNoUniqueName filename cdir)])).
Proof.
  unfold build_unique_destination, bind, stat, ret.
  destruct (os_stat (fs w) _) as [m|].
  - destruct (split_name filename) as [name sfx].
    match goal with |- context [suffix_loop ?f ?i ?c ?n ?e ?o ?s w] =>
      pose proof (suffix_loop_pure f i c n e o s w) as Hpure;
      destruct (suffix_loop f i c n e o s w) as [[found p] w1] end.
    simpl in Hpure. subst w1. destruct found.
    + exists 0, p, w. auto.
    + rewrite logger_log_error. eexists (-1), p, _. split; [reflexivity|]. right. auto.
  - eexists 0, _, w. auto.
Qed.

End StageFacts.

(** ** The scan loop *)

Section ScanFacts.

Context `{os : OS}.

Ltac log_cases :=
  match goal with
  | |- context [logger_log LOG_LEVEL_ERROR ?m ?x] => rewrite (logger_log_error m x)
  | |- context [logger_log ?l ?m ?x] =>
      destruct (logger_log_cases l m x) as [-> | ->]
  end.

Lemma flag_tracks_quiet (r : Z) (new : list Event) :
  existsb is_error new = false -> flag_tracks r r new.
Proof. intros H. left. auto. Qed.

Lemma flag_tracks_raised (r : Z) (new : list Event) :
  existsb is_error new = true -> flag_tracks r 1 new.
Proof. intros H. right. auto. Qed.

Lemma flag_tracks_trans (r1 r2 r3 : Z) (a b : list Event) :
  flag_tracks r1 r2 a -> flag_tracks r2 r3 b -> flag_tracks r1 r3 (a ++ b).
Proof.
  unfold flag_tracks. rewrite existsb_app.
  intros [[E1 A]|[E1 A]] [[E2 B]|[E2 B]]; rewrite A, B; simpl.
  - left. split; congruence.
  - right. auto.
  - right. split; congruence.
  - right. auto.
Qed.

Lemma rename_effect (src dst : string) (w : World) :
  effect w (snd (rename src dst w)) [EvRename src dst].
Proof. unfold rename. destruct (os_rename (fs w) src dst); now split. Qed.

(** One iteration: the events it adds, and the flag following its ERROR
    lines. *)
Lemma scan_entry_effect (config : OrganizerConfig) (base_dir name : string)
    (l : Locals) (w : World) :
  exists l' w' new,
    scan_entry config base_dir name l w = (l', w')
    /\ effect w w' new
    /\ flag_tracks (result l) (result l') new.
Proof.
  unfold scan_entry.
  destruct (String.eqb name "." || String.eqb name "..").
  { exists l, w, []. repeat split; auto using effect_refl. now rewrite app_nil_r.
    now left. }
  set (src := join_path (src_path l) PATH_MAX base_dir name).
  unfold bind at 1. unfold stat at 1. cbn [src_path set_src_path].
  destruct (os_stat (fs w) src) as [m|] eqn:Hstat.
  2:{ unfold bind, ret. log_cases.
      - exists (set_src_path l src), w, []. repeat split; auto using effect_refl.
        now rewrite app_nil_r. now left.
      - eexists (set_src_path l src), _, _. split; [reflexivity|].
        split; [apply effect_append|]. now left. }
  destruct (S_ISREG m); cbn [negb].
  2:{ unfold bind, ret. destruct (verbose config).
      - log_cases.
        + exists (set_src_path l src), w, []. repeat split; auto using effect_refl.
          now rewrite app_nil_r. now left.
        + eexists (set_src_path l src), _, _. split; [reflexivity|].
          split; [apply effect_append|]. now left.
      - exists (set_src_path l src), w, []. repeat split; auto using effect_refl.
        now rewrite app_nil_r. now left. }
  set (cat := category_for_extension (get_extension name)).
  destruct (ensure_directory_exists_effect base_dir cat (category_dir (set_src_path l src))
              PATH_MAX w) as (rc & w1 & new1 & Hens & Heff1 & _ & Hrc).
  unfold bind at 1. rewrite Hens.
  destruct Hrc as [[-> Hq1] | (-> & He1 & _)]; cbn [negb Z.eqb].
  2:{ eexists _, w1, new1. split; [reflexivity|]. split; [exact Heff1|].
      now apply flag_tracks_raised. }
  cbn [category_dir set_category_dir].
  match goal with |- context [build_unique_destination ?c ?f ?o ?s] =>
    destruct (build_unique_destination_effect c f o s w1)
      as (rc & dst & w2 & Hbuild & Hrc) end.
  unfold bind at 1. rewrite Hbuild.
  destruct Hrc as [[-> ->] | [-> ->]]; cbn [negb Z.eqb].
  2:{ eexists _, _, _. split; [reflexivity|].
      split; [exact (effect_trans _ _ _ _ _ Heff1 (effect_append w1 _))|].
      apply flag_tracks_raised. rewrite existsb_app. simpl. apply orb_true_r. }
  cbn [src_path dst_path set_dst_path set_category_dir set_src_path].
  destruct (dry_run config).
  { unfold bind, ret. log_cases.
    - eexists _, w1, new1. split; [reflexivity|]. split; [exact Heff1|].
      now apply flag_tracks_quiet.
    - eexists _, _, _. split; [reflexivity|].
      split; [exact (effect_trans _ _ _ _ _ Heff1 (effect_append w1 _))|].
      apply flag_tracks_quiet. rewrite existsb_app, Hq1. reflexivity. }
  unfold bind at 1.
  pose proof (rename_effect src dst w1) as Heff2.
  destruct (rename src dst w1) as [rc w2] eqn:Hren. simpl in Heff2.
  assert (Hrc : rc = 0 \/ rc = -1).
  { unfold rename in Hren. destruct (os_rename (fs w1) src dst); inversion Hren; auto. }
  destruct Hrc as [-> | ->]; cbn [negb Z.eqb]; unfold bind, ret.
  - log_cases.
    + eexists _, w2, _. split; [reflexivity|].
      split; [exact (effect_trans _ _ _ _ _ Heff1 Heff2)|].
      apply flag_tracks_quiet. rewrite existsb_app, Hq1. reflexivity.
    + eexists _, _, _. split; [reflexivity|].
      split; [exact (effect_trans _ _ _ _ _ (effect_trans _ _ _ _ _ Heff1 Heff2)
                       (effect_append w2 _))|].
      apply flag_tracks_quiet. rewrite !existsb_app, Hq1. reflexivity.
  - log_cases.
    eexists _, _, _. split; [reflexivity|].
    split; [exact (effect_trans _ _ _ _ _ (effect_trans _ _ _ _ _ Heff1 Heff2)
                     (effect_append w2 _))|].
    apply flag_tracks_raised. rewrite !existsb_app. simpl. apply orb_true_r.
Qed.

(** The whole loop, from any flag value. *)
Lemma scan_effect (config : OrganizerConfig) (base_dir : string)
    (entries : list string) :
  forall (l : Locals) (w : World),
  exists l' w' new,
    scan config base_dir entries l w = (l', w')
    /\ effect w w' new
    /\ flag_tracks (result l) (result l') new.
Proof.
  induction entries as [|name rest IH]; intros l w; simpl.
  - exists l, w, []. split; [reflexivity|]. split; [apply effect_refl | now left].
  - destruct (scan_entry_effect config base_dir name l w)
      as (l1 & w1 & new1 & Hstep & Heff1 & Hflag1).
    destruct (IH l1 w1) as (l2 & w2 & new2 & Hrest & Heff2 & Hflag2).
    exists l2, w2, (new1 ++ new2)%list. unfold bind. rewrite Hstep, Hrest.
    split; [reflexivity|].
    split; [exact (effect_trans _ _ _ _ _ Heff1 Heff2)|].
    exact (flag_tracks_trans _ _ _ _ _ Hflag1 Hflag2).
Qed.


End ScanFacts.

(** ** Directory provisioner *)

Lemma join_path_again (buffer : string) (bufsize : Z) (dir name : string) :
  join_path (join_path buffer bufsize dir name) bufsize dir name
  = join_path buffer bufsize dir name.
Proof.
  unfold join_path, snprintf. now destruct (bufsize =? 0).
Qed.

(** What [stat] reports at the path [join_path] wrote decides the call: a
    directory is left alone, anything else is refused. *)
Lemma ensure_directory_exists_visible `{os : OS}
    (base_dir cat out_path : string) (out_size : Z) (w : World) (m : file_type) :
  os_stat (fs w) (join_path out_path out_size base_dir cat) = Some m ->
  let p := join_path out_path out_size base_dir cat in
  (S_ISDIR m = true ->
     ensure_directory_exists base_dir cat out_path out_size w = ((0, p), w)
     /\ bind (ensure_directory_exists base_dir cat out_path out_size)
             (fun r => ensure_directory_exists base_dir cat (snd r) out_size) w
        = ((0, p), w))
  /\
  (S_ISDIR m = false ->
     ensure_directory_exists base_dir cat out_path out_size w
     = ((-1, p), append_events w [EvLog LOG_LEVEL_ERROR (MsgExistsNotDirectory p)])).
Proof.
  intros Hstat p. change (os_stat (fs w) p = Some m) in Hstat.
  assert (Hdir : S_ISDIR m = true ->
                 forall buf, join_path buf out_size base_dir cat = p ->
                 ensure_directory_exists base_dir cat buf out_size w = ((0, p), w)).
  { intros Hm buf Hbuf. unfold ensure_directory_exists, bind, stat, ret.
    rewrite Hbuf. now rewrite Hstat, Hm. }
  split.
  - intros Hm. split.
    + now apply Hdir.
    + unfold bind. rewrite (Hdir Hm out_path eq_refl). cbn [snd].
      apply (Hdir Hm). apply join_path_again.
  - intros Hm. unfold ensure_directory_exists, bind, stat, ret.
    change (join_path out_path out_size base_dir cat) with p.
    rewrite Hstat, Hm. now rewrite logger_log_error.
Qed.

(** ** Orchestrator: validation and status *)

(** C8.  A NULL configuration or target, a target that cannot be stat'ed and
    a target that is not a directory all end the run with status 1; the file
    system is untouched and the run's only event is one ERROR line, so no
    entry was looked at, no directory made and no file renamed. *)
Theorem organizer_run_rejects `{os : OS} (config : option OrganizerConfig) (w : World) :
  rejected config w ->
  exists msg,
    organizer_run config w = (1, append_events w [EvLog LOG_LEVEL_ERROR msg]).
Proof.
  unfold rejected, organizer_run.
  destruct config as [cfg|].
  2:{ intros _. exists MsgInvalidConfiguration. unfold bind, ret.
      now rewrite logger_log_error. }
  destruct (target_dir cfg) as [base_dir|].
  2:{ intros _. exists MsgInvalidConfiguration. unfold bind, ret.
      now rewrite logger_log_error. }
  unfold bind at 1. unfold stat.
  destruct (os_stat (fs w) base_dir) as [m|].
  - intros ->. exists (MsgNotADirectory base_dir). cbn [negb]. unfold bind, ret.
    now rewrite logger_log_error.
  - intros _. exists (MsgCannotAccess base_dir). unfold bind, ret.
    now rewrite logger_log_error.
Qed.

(** What a run that passes validation is: the banner, then the scan of all
    names of the directory stream, then the flag. *)
Lemma organizer_run_scans `{os : OS} (cfg : OrganizerConfig) (base_dir : string)
    (w : World) (m : file_type) (entries : list string) :
  target_dir cfg = Some base_dir ->
  os_stat (fs w) base_dir = Some m -> S_ISDIR m = true ->
  os_readdir (fs w) base_dir = Some entries ->
  organizer_run (Some cfg) w =
  (let (l, w') := scan cfg base_dir entries initial_locals (scan_start cfg base_dir w) in
   (result l, w')).
Proof.
  intros Htarget Hstat Hdir Hread. unfold organizer_run, scan_start.
  rewrite Htarget. unfold bind at 1. unfold stat. rewrite Hstat, Hdir. cbn [negb].
  unfold bind at 1. unfold opendir. rewrite Hread.
  unfold bind at 1.
  destruct (logger_log LOG_LEVEL_INFO (MsgOrganizing base_dir (dry_run cfg)) w)
    as [[] w0]. cbn [snd].
  unfold bind, ret. now destruct (scan cfg base_dir entries initial_locals w0).
Qed.


(** ** Unique destination resolver *)

Lemma int_of_size_t_small (n : Z) : 0 <= n < 2147483648 -> int_of_size_t n = n.
Proof.
  intros Hn. unfold int_of_size_t. rewrite Z.mod_small; lia.
Qed.

Lemma int_of_size_t_le (n : Z) : 0 <= n -> int_of_size_t n <= n.
Proof.
  intros Hn. unfold int_of_size_t.
  pose proof (Z.mod_le (n + 2147483648) 4294967296). lia.
Qed.

(** A text that passes the loop's truncation test is in the buffer whole. *)
Lemma snprintf_fits (buffer : string) (size : Z) (text : string) :
  0 <= size -> fits text size -> fst (snprintf buffer size text) = text.
Proof.
  unfold fits, snprintf. intros Hsize Hfits. cbn [fst].
  pose proof (int_of_size_t_le size Hsize) as Hle.
  pose proof (strlen_nonneg text) as Hpos.
  destruct (Z.eqb_spec size 0) as [E|E]; [lia|].
  apply str_take_all. unfold strlen in *. lia.
Qed.

Lemma join_path_joined (buffer : string) (bufsize : Z) (dir name : string) :
  0 < bufsize -> strlen (joined dir name) < bufsize ->
  join_path buffer bufsize dir name = joined dir name.
Proof.
  intros Hsize Hlen. unfold join_path, joined in *.
  destruct (Z.eqb_spec bufsize 0) as [E|_]; [lia|].
  assert (Htake : forall text, strlen text < bufsize ->
                               fst (snprintf buffer bufsize text) = text).
  { intros text Ht. unfold snprintf. cbn [fst].
    destruct (Z.eqb_spec bufsize 0) as [E|_]; [lia|].
    apply str_take_all. unfold strlen in Ht. lia. }
  destruct (str_last dir) as [c|] eqn:Hlast.
  - assert (Hpos : (strlen dir >? 0) = true).
    { destruct dir; [discriminate|]. unfold strlen. simpl String.length. apply Z.gtb_lt. lia. }
    rewrite Hpos. cbn [andb].
    destruct (is_separator c); now apply Htake.
  - rewrite andb_false_r. now apply Htake.
Qed.

(** C9 (as amended).  For a base directory and category whose joined path
    fits the buffer: when [stat] reports a directory at
    [join(base_dir, category)], [ensure_directory_exists] succeeds and the
    world (file system and event trace) is exactly as before, so calling it
    again changes nothing either; when [stat] reports something that is not
    a directory it fails, the file system is untouched and the only event is
    the ERROR line: no [mkdir] is issued. *)
Theorem ensure_directory_exists_idempotent `{os : OS}
    (base_dir cat out_path : string) (out_size : Z) (w : World) (m : file_type) :
  0 < out_size ->
  strlen (joined base_dir cat) < out_size ->
  os_stat (fs w) (joined base_dir cat) = Some m ->
  let p := joined base_dir cat in
  (S_ISDIR m = true ->
     ensure_directory_exists base_dir cat out_path out_size w = ((0, p), w)
     /\ bind (ensure_directory_exists base_dir cat out_path out_size)
             (fun r => ensure_directory_exists base_dir cat (snd r) out_size) w
        = ((0, p), w))
  /\
  (S_ISDIR m = false ->
     ensure_directory_exists base_dir cat out_path out_size w
     = ((-1, p), append_events w [EvLog LOG_LEVEL_ERROR (MsgExistsNotDirectory p)])).
Proof.
  intros Hsize Hfits Hstat p.
  pose proof (join_path_joined out_path out_size base_dir cat Hsize Hfits) as Hjoin.
  rewrite <- Hjoin in Hstat.
  pose proof (ensure_directory_exists_visible base_dir cat out_path out_size w m Hstat)
    as Hvisible.
  cbv zeta in Hvisible. rewrite Hjoin in Hvisible. exact Hvisible.
Qed.

(** C9 as stated fails where the category path is occupied by something
    [stat] cannot resolve.  [d/Images] is a symbolic link that leads nowhere:
    the path names an existing non-directory, [stat] fails on it, and the
    provisioner goes on to attempt [mkdir] (which the file system refuses)
    before it reports the failure. *)
Lemma ensure_directory_exists_counterexample :
  let r := ensure_directory_exists "d" "Images" "" PATH_MAX
             (boot dangling_category_disk) in
  inode_at dangling_category_disk (joined "d" "Images") = Some (ISymlink "/nowhere")
  /\ join_path "" PATH_MAX "d" "Images" = joined "d" "Images"
  /\ fst r = (-1, "d/Images")
  /\ events (snd r) =
     [ EvMkdir "d/Images" 493;
       EvLog LOG_LEVEL_ERROR (MsgCreateFailed "d/Images") ].
Proof. vm_compute. repeat split; reflexivity. Qed.

Section ResolverFacts.

Context `{os : OS}.

Variables (cdir name sfx : string) (out_size : Z) (w : World).
Hypothesis out_size_nonneg : 0 <= out_size.

Let cand (i : Z) : string := candidate cdir name i sfx.

Lemma suffix_loop_step (fuel : nat) (i : Z) (out_path : string) :
  suffix_loop (S fuel) i cdir name sfx out_path out_size =
  if i <? 10000 then
    let buf := fst (snprintf out_path out_size (cand i)) in
    if strlen (cand i) >=? int_of_size_t out_size
    then suffix_loop fuel (i + 1) cdir name sfx buf out_size
    else bind (stat buf)
           (fun st => match st with
                      | None => ret (true, buf)
                      | Some _ => suffix_loop fuel (i + 1) cdir name sfx buf out_size
                      end)
  else ret (false, out_path).
Proof. reflexivity. Qed.

(** If every candidate from [i] on that fits the buffer is taken, the loop
    comes back empty-handed. *)
Lemma suffix_loop_exhausted (fuel : nat) :
  forall (i : Z) (out_path : string),
    (forall j, i <= j < 10000 -> fits (cand j) out_size ->
               os_stat (fs w) (cand j) <> None) ->
    fst (fst (suffix_loop fuel i cdir name sfx out_path out_size w)) = false.
Proof.
  induction fuel as [|fuel IH]; intros i out_path Htaken; [reflexivity|].
  rewrite suffix_loop_step.
  destruct (Z.ltb_spec i 10000) as [Hi|Hi]; [|reflexivity].
  cbv zeta. set (buf := fst (snprintf out_path out_size (cand i))).
  destruct (Z.geb_spec (strlen (cand i)) (int_of_size_t out_size)) as [Hge|Hlt].
  - apply IH. intros j Hj. apply Htaken. lia.
  - assert (Hfit : fits (cand i) out_size) by (unfold fits; lia).
    assert (Hbuf : buf = cand i)
      by (apply snprintf_fits; [exact out_size_nonneg | exact Hfit]).
    unfold bind, stat, ret. rewrite Hbuf.
    destruct (os_stat (fs w) (cand i)) eqn:Hst.
    + apply IH. intros j Hj. apply Htaken. lia.
    + exfalso. apply (Htaken i); [lia | exact Hfit | exact Hst].
Qed.


(** The loop ends by its own test [i < 10000]: any amount of fuel that covers
    the remaining range gives the same result. *)
Lemma suffix_loop_bound (fuel1 : nat) :
  forall (fuel2 : nat) (i : Z) (out_path : string),
    (Z.to_nat (10000 - i) <= fuel1)%nat -> (Z.to_nat (10000 - i) <= fuel2)%nat ->
    suffix_loop fuel1 i cdir name sfx out_path out_size w
    = suffix_loop fuel2 i cdir name sfx out_path out_size w.
Proof.
  induction fuel1 as [|fuel1 IH]; intros [|fuel2] i out_path H1 H2;
    try reflexivity.
  - rewrite suffix_loop_step. destruct (Z.ltb_spec i 10000); [lia | reflexivity].
  - rewrite suffix_loop_step. destruct (Z.ltb_spec i 10000); [lia | reflexivity].
  - rewrite !suffix_loop_step.
    destruct (Z.ltb_spec i 10000) as [Hi|Hi]; [|reflexivity].
    cbv zeta. set (buf := fst (snprintf out_path out_size (cand i))).
    assert (Hnext : suffix_loop fuel1 (i + 1) cdir name sfx buf out_size w
                    = suffix_loop fuel2 (i + 1) cdir name sfx buf out_size w)
      by (apply IH; lia).
    destruct (strlen (cand i) >=? int_of_size_t out_size); [exact Hnext|].
    unfold bind, stat, ret. destruct (os_stat (fs w) buf); [exact Hnext | reflexivity].
Qed.

End ResolverFacts.

Lemma str_take_prefix (a b : string) : str_take (String.length a) (a ++ b) = a.
Proof. induction a as [|c a IH]; simpl; [now destruct b | now rewrite IH]. Qed.

Lemma str_drop_prefix (a b : string) : str_drop (String.length a) (a ++ b) = b.
Proof. induction a as [|c a IH]; simpl; [reflexivity | exact IH]. Qed.

(** A name [stem.e] is split before its last dot... *)
Lemma split_name_dotted (stem e : string) :
  stem <> "" -> strrchr e "." = None ->
  strlen (stem ++ "." ++ e) < PATH_MAX ->
  split_name (stem ++ "." ++ e) = (stem, "." ++ e).
Proof.
  intros Hstem He Hlen. unfold split_name.
  change (stem ++ "." ++ e) with (stem ++ String "." e) in *.
  change ("." ++ e) with (String "." e).
  rewrite (strrchr_after_stem stem e He).
  rewrite strlen_append in Hlen.
  pose proof (strlen_nonneg stem). pose proof (strlen_nonneg (String "." e)).
  destruct (String.length stem) as [|n] eqn:Hn.
  { destruct stem; [congruence | discriminate]. }
  rewrite <- Hn. unfold PATH_MAX in *.
  destruct (Z.geb_spec (Z.of_nat (String.length stem)) 4096) as [Hge|_];
    [unfold strlen in *; lia|].
  rewrite str_take_prefix, str_drop_prefix.
  f_equal. apply str_take_all. unfold strlen in *. lia.
Qed.

(** ... and a name without extension is all stem. *)
Lemma split_name_plain (name : string) :
  strrchr name "." = None \/ strrchr name "." = Some 0%nat ->
  strlen name < PATH_MAX ->
  split_name name = (name, "").
Proof.
  intros Hdot Hlen. unfold split_name.
  assert (Htake : str_take (Z.to_nat (PATH_MAX - 1)) name = name).
  { apply str_take_all. unfold strlen, PATH_MAX in *. lia. }
  destruct Hdot as [-> | ->]; now rewrite Htake.
Qed.

Section ResolverResults.

Context `{os : OS}.

Variables (cdir filename out_path : string) (out_size : Z) (w : World).
Hypothesis out_size_nonneg : 0 <= out_size.

Let first : string := join_path out_path out_size cdir filename.
Let cand (i : Z) : string :=
  candidate cdir (fst (split_name filename)) i (snd (split_name filename)).

Lemma build_unique_destination_free :
  os_stat (fs w) first = None ->
  build_unique_destination cdir filename out_path out_size w = ((0, first), w).
Proof.
  intros Hfree. unfold build_unique_destination, bind, stat, ret.
  fold first. now rewrite Hfree.
Qed.


Lemma build_unique_destination_exhausted :
  os_stat (fs w) first <> None ->
  (forall j, 1 <= j < 10000 -> fits (cand j) out_size ->
             os_stat (fs w) (cand j) <> None) ->
  exists p,
    build_unique_destination cdir filename out_path out_size w
    = ((-1, p),
       append_events w [EvLog LOG_LEVEL_ERROR (MsgNoUniqueName filename cdir)]).
Proof.
  intros Hbusy Htaken.
  unfold build_unique_destination, bind, stat, ret. fold first.
  destruct (os_stat (fs w) first); [|congruence].
  unfold cand in *. destruct (split_name filename) as [name sfx]. cbn [fst snd] in *.
  pose proof (suffix_loop_exhausted cdir name sfx out_size w out_size_nonneg
                (Z.to_nat 9999) 1 first Htaken) as Hnone.
  pose proof (suffix_loop_pure (Z.to_nat 9999) 1 cdir name sfx first out_size w) as Hpure.
  destruct (suffix_loop (Z.to_nat 9999) 1 cdir name sfx first out_size w)
    as [[found p] w1].
  cbn [fst snd] in *. subst found w1. rewrite logger_log_error. now exists p.
Qed.

End ResolverResults.

(** C7.  For a regular entry whose category directory is in place: when the
    plain destination is taken and so is every suffixed candidate 1..9999
    that fits the buffer, [build_unique_destination] returns -1 after the
    ERROR line "Could not generate unique name"; the iteration raises the
    flag and ends there, having issued no [rename]; and the search stops by
    its own bound: fuel beyond the 9999 iterations changes nothing. *)
Theorem name_space_exhausted `{os : OS} (cfg : OrganizerConfig)
    (base_dir name : string) (l : Locals) (w w1 : World) (m : file_type)
    (cdir : string) :
  let src := join_path (src_path l) PATH_MAX base_dir name in
  let stem := fst (split_name name) in
  let sfx := snd (split_name name) in
  let failure := EvLog LOG_LEVEL_ERROR (MsgNoUniqueName name cdir) in
  String.eqb name "." || String.eqb name ".." = false ->
  os_stat (fs w) src = Some m -> S_ISREG m = true ->
  ensure_directory_exists base_dir (category_for_extension (get_extension name))
    (category_dir l) PATH_MAX w = ((0, cdir), w1) ->
  os_stat (fs w1) (join_path (dst_path l) PATH_MAX cdir name) <> None ->
  (forall i, 1 <= i < 10000 -> fits (candidate cdir stem i sfx) PATH_MAX ->
             os_stat (fs w1) (candidate cdir stem i sfx) <> None) ->
  (exists p,
      build_unique_destination cdir name (dst_path l) PATH_MAX w1
      = ((-1, p), append_events w1 [failure]))
  /\ (exists l' new,
         scan_entry cfg base_dir name l w = (l', append_events w1 [failure])
         /\ result l' = 1
         /\ effect w (append_events w1 [failure]) new
         /\ existsb is_rename new = false)
  /\ (forall extra p,
         suffix_loop (Z.to_nat 9999 + extra) 1 cdir stem sfx p PATH_MAX w1
         = suffix_loop (Z.to_nat 9999) 1 cdir stem sfx p PATH_MAX w1).
Proof.
  intros src stem sfx failure Hname Hstat Hreg Hens Hbusy Htaken.
  assert (Hsize : 0 <= PATH_MAX) by (unfold PATH_MAX; lia).
  destruct (build_unique_destination_exhausted cdir name (dst_path l) PATH_MAX w1
              Hsize Hbusy Htaken) as [p Hbuild].
  split; [now exists p|]. split.
  - destruct (ensure_directory_exists_effect base_dir
                (category_for_extension (get_extension name)) (category_dir l)
                PATH_MAX w) as (rc & w1' & new1 & Hens' & Heff1 & Hnoren & _).
    rewrite Hens in Hens'. inversion Hens'; subst rc w1'.
    exists (set_result (set_dst_path (set_category_dir (set_src_path l src) cdir) p) 1),
           (new1 ++ [failure])%list.
    split; [|split; [reflexivity|split]].
    + unfold scan_entry. rewrite Hname.
      unfold bind at 1. unfold stat at 1. cbn [src_path set_src_path].
      fold src. rewrite Hstat, Hreg. cbn [negb].
      unfold bind at 1. cbn [category_dir set_src_path]. rewrite Hens.
      cbn [negb Z.eqb]. unfold bind at 1.
      cbn [category_dir dst_path set_category_dir set_src_path].
      rewrite Hbuild. reflexivity.
    + exact (effect_trans _ _ _ _ _ Heff1 (effect_append w1 _)).
    + rewrite existsb_app, Hnoren. reflexivity.
  - intros extra p'. apply suffix_loop_bound; lia.
Qed.

Lemma Z_range_In (n : nat) :
  forall lo j, lo <= j < lo + Z.of_nat n -> In j (Z_range lo n).
Proof.
  induction n as [|n IH]; intros lo j Hj; [lia|]. simpl.
  destruct (Z.eq_dec lo j) as [->|Hne]; [now left|].
  right. apply IH. lia.
Qed.

Lemma crowded_stat (free : string -> bool) (p : string) :
  free p = false -> disk_stat (crowded_disk free) p <> None.
Proof.
  intros Hp. unfold disk_stat, SYMLOOP_MAX, follow, crowded_disk. cbn [inode_at].
  rewrite Hp. now destruct (String.eqb p "d" || String.eqb p "d/Documents").
Qed.


Example resolve_fresh :
  fst (build_unique_destination "d/Images" "a.jpg" "" PATH_MAX (boot fresh_disk))
  = (0, "d/Images/a.jpg").
Proof. vm_compute. reflexivity. Qed.

Example resolve_report_1 :
  fst (build_unique_destination "d/Documents" "report.txt" "" PATH_MAX
         (boot (disk_of [("d/Documents", IDirectory);
                         ("d/Documents/report.txt", IRegular)] "d" [] [])))
  = (0, "d/Documents/report_1.txt").
Proof. vm_compute. reflexivity. Qed.

Example resolve_report_2 :
  fst (build_unique_destination "d/Documents" "report.txt" "" PATH_MAX (boot taken_disk))
  = (0, "d/Documents/report_2.txt").
Proof. vm_compute. reflexivity. Qed.



Lemma name_space_exhausted_witness :
  exists l' new,
    scan_entry move_d "d" "report.txt" initial_locals (boot (crowded_disk (fun _ => false)))
    = (l', append_events (boot (crowded_disk (fun _ => false)))
             [EvLog LOG_LEVEL_ERROR (MsgNoUniqueName "report.txt" "d/Documents")])
    /\ result l' = 1
    /\ effect (boot (crowded_disk (fun _ => false)))
              (append_events (boot (crowded_disk (fun _ => false)))
                 [EvLog LOG_LEVEL_ERROR (MsgNoUniqueName "report.txt" "d/Documents")])
              new
    /\ existsb is_rename new = false.
Proof.
  refine (proj1 (proj2 (name_space_exhausted (os := DiskOS) move_d "d" "report.txt"
                          initial_locals (boot (crowded_disk (fun _ => false)))
                          (boot (crowded_disk (fun _ => false))) S_IFREG "d/Documents"
                          _ _ _ _ _ _))).
  - reflexivity.
  - vm_compute. reflexivity.
  - reflexivity.
  - vm_compute. reflexivity.
  - vm_compute. discriminate.
  - intros i Hi Hfit. apply (crowded_stat (fun _ => false)). reflexivity.
Defined.

(** ** Runs on the example directories *)

Example run_fresh :
  let r := organizer_run (Some move_d) (boot fresh_disk) in
  fst r = 0
  /\ events (snd r) =
     [ EvLog LOG_LEVEL_INFO (MsgOrganizing "d" false);
       EvMkdir "d/Images" 493;
       EvLog LOG_LEVEL_INFO (MsgCreated "d/Images");
       EvRename "d/a.jpg" "d/Images/a.jpg";
       EvLog LOG_LEVEL_INFO (MsgMoved "d/a.jpg" "d/Images/a.jpg");
       EvMkdir "d/Documents" 493;
       EvLog LOG_LEVEL_INFO (MsgCreated "d/Documents");
       EvRename "d/b.txt" "d/Documents/b.txt";
       EvLog LOG_LEVEL_INFO (MsgMoved "d/b.txt" "d/Documents/b.txt");
       EvMkdir "d/Other" 493;
       EvLog LOG_LEVEL_INFO (MsgCreated "d/Other");
       EvRename "d/c" "d/Other/c";
       EvLog LOG_LEVEL_INFO (MsgMoved "d/c" "d/Other/c") ]
  /\ inode_at (fs (snd r)) "d/notes" = Some IDirectory.
Proof. vm_compute. auto. Qed.

Example run_locked :
  let r := organizer_run (Some move_d) (boot locked_disk) in
  fst r = 1
  /\ events (snd r) =
     [ EvLog LOG_LEVEL_INFO (MsgOrganizing "d" false);
       EvMkdir "d/Images" 493;
       EvLog LOG_LEVEL_ERROR (MsgCreateFailed "d/Images");
       EvMkdir "d/Documents" 493;
       EvLog LOG_LEVEL_INFO (MsgCreated "d/Documents");
       EvRename "d/b.txt" "d/Documents/b.txt";
       EvLog LOG_LEVEL_INFO (MsgMoved "d/b.txt" "d/Documents/b.txt") ].
Proof. vm_compute. auto. Qed.


Lemma organizer_run_rejects_witness :
  exists msg,
    organizer_run (Some (mkConfig (Some "d/a.jpg") false false)) (boot fresh_disk)
    = (1, append_events (boot fresh_disk) [EvLog LOG_LEVEL_ERROR msg]).
Proof.
  apply (organizer_run_rejects (os := DiskOS)
           (Some (mkConfig (Some "d/a.jpg") false false)) (boot fresh_disk)).
  reflexivity.
Defined.

Lemma ensure_directory_exists_idempotent_witness :
  ensure_directory_exists "d" "Documents" "" PATH_MAX (boot taken_disk)
  = ((0, "d/Documents"), boot taken_disk)
  /\ ensure_directory_exists "d" "Images" "" PATH_MAX (boot conflict_disk)
     = ((-1, "d/Images"),
        append_events (boot conflict_disk)
          [EvLog LOG_LEVEL_ERROR (MsgExistsNotDirectory "d/Images")]).
Proof.
  split.
  - apply (proj1 (ensure_directory_exists_idempotent (os := DiskOS)
                    "d" "Documents" "" PATH_MAX (boot taken_disk) S_IFDIR
                    ltac:(unfold PATH_MAX; lia) ltac:(vm_compute; reflexivity) eq_refl)).
    reflexivity.
  - apply (proj2 (ensure_directory_exists_idempotent (os := DiskOS)
                    "d" "Images" "" PATH_MAX (boot conflict_disk) S_IFREG
                    ltac:(unfold PATH_MAX; lia) ltac:(vm_compute; reflexivity) eq_refl)).
    reflexivity.
Defined.

(** ** Where the code departs from its documentation *)

(** C1.  A dry run over a directory holding [a.jpg], [b.txt] and [c] prints
    the three planned moves and renames nothing, but it creates the three
    category directories: the file system after the run is not the one
    before. *)
Theorem dry_run_creates_directories :
  let before := boot fresh_disk in
  let r := organizer_run (Some dry_d) before in
  fst r = 0
  /\ events (snd r) =
     [ EvLog LOG_LEVEL_INFO (MsgOrganizing "d" true);
       EvMkdir "d/Images" 493;
       EvLog LOG_LEVEL_INFO (MsgCreated "d/Images");
       EvLog LOG_LEVEL_INFO (MsgDryRunMove "d/a.jpg" "d/Images/a.jpg");
       EvMkdir "d/Documents" 493;
       EvLog LOG_LEVEL_INFO (MsgCreated "d/Documents");
       EvLog LOG_LEVEL_INFO (MsgDryRunMove "d/b.txt" "d/Documents/b.txt");
       EvMkdir "d/Other" 493;
       EvLog LOG_LEVEL_INFO (MsgCreated "d/Other");
       EvLog LOG_LEVEL_INFO (MsgDryRunMove "d/c" "d/Other/c") ]
  /\ os_stat (fs before) "d/Images" = None
  /\ os_stat (fs (snd r)) "d/Images" = Some S_IFDIR
  /\ os_stat (fs (snd r)) "d/Documents" = Some S_IFDIR
  /\ os_stat (fs (snd r)) "d/Other" = Some S_IFDIR.
Proof. vm_compute. repeat split; reflexivity. Qed.

(** C4.  A symbolic link to a regular file is taken for a regular file
    ([stat] follows the link) and the link itself is renamed into the
    category directory. *)
Theorem symlink_is_moved :
  let r := organizer_run (Some move_d) (boot link_disk) in
  inode_at link_disk "d/link.txt" = Some (ISymlink "/etc/hostname")
  /\ fst r = 0
  /\ events (snd r) =
     [ EvLog LOG_LEVEL_INFO (MsgOrganizing "d" false);
       EvMkdir "d/Documents" 493;
       EvLog LOG_LEVEL_INFO (MsgCreated "d/Documents");
       EvRename "d/link.txt" "d/Documents/link.txt";
       EvLog LOG_LEVEL_INFO (MsgMoved "d/link.txt" "d/Documents/link.txt") ]
  /\ inode_at (fs (snd r)) "d/link.txt" = None
  /\ inode_at (fs (snd r)) "d/Documents/link.txt" = Some (ISymlink "/etc/hostname").
Proof. vm_compute. repeat split; reflexivity. Qed.

(** C6.  Joining a 4090-character directory with [report.txt] needs 4101
    characters; [join_path] leaves the first 4095 in the buffer, ending in
    [/repo], and has no way to say so.  The provisioner then creates the
    directory [.../Docu] for the category "Documents" and reports success. *)
Theorem join_path_truncates :
  strlen (joined long_dir "report.txt") = 4101
  /\ join_path "" PATH_MAX long_dir "report.txt" = long_dir ++ "/repo"
  /\ strlen (join_path "" PATH_MAX long_dir "report.txt") = 4095
  /\ (let r := ensure_directory_exists long_dir "Documents" "" PATH_MAX
                 (boot long_disk) in
      fst r = (0, long_dir ++ "/Docu")
      /\ events (snd r) =
         [ EvMkdir (long_dir ++ "/Docu") 493;
           EvLog LOG_LEVEL_INFO (MsgCreated (long_dir ++ "/Docu")) ]).
Proof. vm_compute. repeat split; reflexivity. Qed.

(** * Further properties *)

(** ** Path builder *)

Lemma str_append_assoc (a b c : string) : (a ++ b) ++ c = a ++ (b ++ c).
Proof. induction a as [|x a IH]; simpl; [reflexivity | now rewrite IH]. Qed.

Lemma str_append_nil_r (a : string) : a ++ "" = a.
Proof. induction a as [|x a IH]; simpl; [reflexivity | now rewrite IH]. Qed.

Lemma length_str_take (n : nat) (s : string) :
  String.length (str_take n s) = Nat.min n (String.length s).
Proof.
  revert n. induction s as [|c s IH]; intros [|n]; simpl; try reflexivity.
  now rewrite IH.
Qed.

Lemma str_last_snoc (d : string) (c : ascii) :
  str_last (d ++ String c "") = Some c.
Proof.
  induction d as [|x d IH]; simpl; [reflexivity|].
  destruct (d ++ String c "") eqn:E; [destruct d; discriminate | exact IH].
Qed.

(** Whatever the directory, a non-empty buffer receives the leading part of
    the joined text. *)
Lemma join_path_take (buffer : string) (bufsize : Z) (dir name : string) :
  bufsize <> 0 ->
  join_path buffer bufsize dir name
  = str_take (Z.to_nat (bufsize - 1)) (joined dir name).
Proof.
  intros Hsize. unfold join_path, joined, snprintf.
  destruct (Z.eqb_spec bufsize 0) as [E|_]; [contradiction|].
  destruct (str_last dir) as [c|] eqn:Hlast.
  - assert (Hpos : (strlen dir >? 0) = true).
    { destruct dir; [discriminate|]. unfold strlen. simpl String.length.
      apply Z.gtb_lt. lia. }
    rewrite Hpos. cbn [andb]. now destruct (is_separator c).
  - now rewrite andb_false_r.
Qed.

Lemma join_path_any_buffer (b1 b2 : string) (bufsize : Z) (dir name : string) :
  bufsize <> 0 ->
  join_path b1 bufsize dir name = join_path b2 bufsize dir name.
Proof. intros H. now rewrite !join_path_take. Qed.

(** X1.  [join_path] never writes past its buffer: a zero-sized buffer is
    left alone, and otherwise the result is the leading [bufsize - 1]
    characters of the joined text, so its length (without the terminator) is
    below [bufsize]. *)
Theorem join_path_within_buffer (buffer : string) (bufsize : Z) (dir name : string) :
  0 <= bufsize ->
  (bufsize = 0 -> join_path buffer bufsize dir name = buffer)
  /\ (0 < bufsize ->
      join_path buffer bufsize dir name
      = str_take (Z.to_nat (bufsize - 1)) (joined dir name)
      /\ strlen (join_path buffer bufsize dir name)
         = Z.min (bufsize - 1) (strlen (joined dir name))
      /\ strlen (join_path buffer bufsize dir name) < bufsize).
Proof.
  intros Hsize. split.
  - intros ->. reflexivity.
  - intros Hpos.
    assert (Htake := join_path_take buffer bufsize dir name ltac:(lia)).
    split; [exact Htake|]. rewrite Htake. unfold strlen. rewrite length_str_take.
    split; lia.
Qed.

Lemma join_path_within_buffer_witness :
  join_path "" 6 "dir" "a.txt" = "dir/a"
  /\ strlen (join_path "" 6 "dir" "a.txt") < 6.
Proof.
  destruct (join_path_within_buffer "" 6 "dir" "a.txt" ltac:(lia)) as [_ H].
  destruct (H ltac:(lia)) as (Htake & _ & Hlt).
  split; [rewrite Htake; reflexivity | exact Hlt].
Defined.

(** X2.  A trailing slash on the directory makes no difference to the result
    (no second separator is added), and a trailing backslash counts as a
    separator too: the name is appended to it directly. *)
Theorem join_path_trailing_separator (buffer : string) (bufsize : Z)
    (d name : string) :
  match str_last d with
  | Some c => is_separator c = false
  | None => True
  end ->
  join_path buffer bufsize (d ++ "/") name = join_path buffer bufsize d name
  /\ (bufsize <> 0 ->
      join_path buffer bufsize (d ++ "\") name
      = str_take (Z.to_nat (bufsize - 1)) (d ++ "\" ++ name)).
Proof.
  intros Hd.
  destruct (Z.eq_dec bufsize 0) as [->|Hsize]; [split; [reflexivity|congruence]|].
  rewrite !join_path_take by assumption. unfold joined.
  rewrite !str_last_snoc. cbn [is_separator Ascii.eqb orb].
  change (is_separator "/") with true. change (is_separator "\") with true.
  cbv iota. rewrite !str_append_assoc.
  split; [|intros _; reflexivity].
  destruct (str_last d) as [c|]; [now rewrite Hd | reflexivity].
Qed.

Lemma join_path_trailing_separator_witness :
  join_path "" PATH_MAX "photos/" "a.jpg" = join_path "" PATH_MAX "photos" "a.jpg"
  /\ join_path "" PATH_MAX "photos\" "a.jpg" = "photos\a.jpg".
Proof.
  destruct (join_path_trailing_separator "" PATH_MAX "photos" "a.jpg" eq_refl)
    as [Hslash Hback].
  split; [exact Hslash|].
  exact (Hback ltac:(discriminate)).
Defined.

(** ** Extension classifier *)

Lemma lower_char_idempotent (c : ascii) : lower_char (lower_char c) = lower_char c.
Proof. destruct c as [[] [] [] [] [] [] [] []]; reflexivity. Qed.

Lemma to_lowercase_idempotent (s : string) :
  to_lowercase (to_lowercase s) = to_lowercase s.
Proof.
  induction s as [|c s IH]; simpl; [reflexivity|].
  now rewrite lower_char_idempotent, IH.
Qed.

(** X3.  Classification does not look at the case of ASCII letters: two
    extensions with the same lowercase form get the same category, and so
    does an extension and its lowercase form. *)
Theorem category_case_insensitive (e1 e2 : string) :
  to_lowercase e1 = to_lowercase e2 ->
  category_for_extension (Some e1) = category_for_extension (Some e2)
  /\ category_for_extension (Some (to_lowercase e1)) = category_for_extension (Some e1).
Proof.
  intros Hlow.
  assert (Hsame : forall a b, to_lowercase a = to_lowercase b ->
                              category_for_extension (Some a)
                              = category_for_extension (Some b)).
  { intros a b Hab. unfold category_for_extension. cbv zeta.
    assert (Hlen : strlen a = strlen b).
    { unfold strlen. f_equal.
      rewrite <- (length_to_lowercase a), <- (length_to_lowercase b). now rewrite Hab. }
    now rewrite Hlen, Hab. }
  split; [now apply Hsame|].
  apply Hsame. apply to_lowercase_idempotent.
Qed.

Lemma category_case_insensitive_witness :
  category_for_extension (Some "JpEg") = category_for_extension (Some "jpeg").
Proof.
  apply (proj1 (category_case_insensitive "JpEg" "jpeg" eq_refl)).
Defined.

Lemma table_scan_range (tmp : string) (table : list ExtensionCategory) :
  In (table_scan tmp table) (DEFAULT_CATEGORY :: map category table).
Proof.
  induction table as [|e table IH]; simpl; [now left|].
  destruct (String.eqb tmp (ext e)); [right; now left|].
  destruct IH as [IH|IH]; [now left | right; now right].
Qed.

Lemma category_in_names (e : option string) :
  In (category_for_extension e) CATEGORY_NAMES.
Proof.
  assert (Hdefault : In DEFAULT_CATEGORY CATEGORY_NAMES) by (simpl; tauto).
  assert (Htable : forall c, In c (DEFAULT_CATEGORY :: map category EXTENSION_TABLE) ->
                             In c CATEGORY_NAMES).
  { intros c Hc.
    pose proof (proj1 (forallb_forall
                         (fun x => existsb (String.eqb x) CATEGORY_NAMES)
                         (DEFAULT_CATEGORY :: map category EXTENSION_TABLE))
                  eq_refl c Hc) as Hex.
    apply existsb_exists in Hex as (y & Hy & Heq).
    apply String.eqb_eq in Heq. now subst y. }
  destruct e as [x|]; [|exact Hdefault].
  unfold category_for_extension. cbv zeta.
  destruct ((strlen x =? 0) || (strlen x >=? TMP_SIZE)); [exact Hdefault|].
  apply Htable, table_scan_range.
Qed.

(** X4.  Whatever the extension, the category is one of nine directory
    names, none of which is empty or contains a path separator. *)
Theorem category_is_a_directory_name (e : option string) :
  In (category_for_extension e) CATEGORY_NAMES
  /\ category_for_extension e <> ""
  /\ strrchr (category_for_extension e) "/" = None
  /\ strrchr (category_for_extension e) "\" = None.
Proof.
  pose proof (category_in_names e) as Hin. split; [exact Hin|].
  pose proof (proj1 (forallb_forall
                       (fun c => negb (String.eqb c "")
                                 && match strrchr c "/" with None => true | _ => false end
                                 && match strrchr c "\" with None => true | _ => false end)
                       CATEGORY_NAMES) eq_refl _ Hin) as Hok.
  apply andb_true_iff in Hok as [Hok Hback].
  apply andb_true_iff in Hok as [Hne Hslash].
  apply negb_true_iff, String.eqb_neq in Hne.
  split; [exact Hne|].
  split.
  - now destruct (strrchr (category_for_extension e) "/").
  - now destruct (strrchr (category_for_extension e) "\").
Qed.

Lemma strrchr_split (c : ascii) (s : string) :
  forall k, strrchr s c = Some k ->
            s = str_take k s ++ String c (str_drop (S k) s)
            /\ strrchr (str_drop (S k) s) c = None
            /\ String.length (str_take k s) = k.
Proof.
  induction s as [|a rest IH]; intros k Hk; simpl in Hk; [discriminate|].
  destruct (strrchr rest c) as [k'|] eqn:Hrest.
  - inversion Hk; subst k. destruct (IH k' eq_refl) as (Heq & Hnone & Hlen).
    cbn [str_take str_drop]. split; [|split].
    + cbn [append]. f_equal. exact Heq.
    + exact Hnone.
    + cbn [String.length]. now rewrite Hlen.
  - destruct (Ascii.eqb_spec a c) as [->|_]; [|discriminate].
    inversion Hk; subst k. cbn [str_take str_drop].
    split; [|split]; [now destruct rest | now destruct rest | reflexivity].
Qed.

(** X5.  [get_extension] answers [e] exactly for the names [stem.e] with a
    non-empty stem and no dot in [e]: the extension is what follows the last
    dot, and a name whose only dot comes first has none. *)
Theorem get_extension_iff (name e : string) :
  get_extension name = Some e <->
  exists stem, stem <> "" /\ name = stem ++ "." ++ e /\ strrchr e "." = None.
Proof.
  split.
  - unfold get_extension. destruct (strrchr name ".") as [[|k]|] eqn:Hdot;
      try discriminate.
    intros He. inversion He; subst e.
    destruct (strrchr_split "." name (S k) Hdot) as (Heq & Hnone & Hlen).
    exists (str_take (S k) name). split; [|split].
    + intros Hempty. rewrite Hempty in Hlen. discriminate.
    + exact Heq.
    + exact Hnone.
  - intros (stem & Hstem & -> & Hnone). now apply get_extension_split.
Qed.

(** ** Suffixed names *)

Lemma strrchr_app (c : ascii) (a b : string) :
  strrchr (a ++ b) c =
  match strrchr b c with
  | Some k => Some (String.length a + k)%nat
  | None => strrchr a c
  end.
Proof.
  induction a as [|x a IH]; simpl.
  - now destruct (strrchr b c).
  - rewrite IH. now destruct (strrchr b c).
Qed.

Lemma uint_no_dot (d : Decimal.uint) :
  strrchr (NilEmpty.string_of_uint d) "." = None.
Proof. induction d; simpl; try rewrite IHd; reflexivity. Qed.

Lemma decimal_no_dot (i : Z) : strrchr (decimal i) "." = None.
Proof.
  unfold decimal, NilZero.string_of_int, NilZero.string_of_uint.
  destruct (Z.to_int i) as [d|d]; destruct d; try reflexivity;
    match goal with
    | |- context [NilEmpty.string_of_uint ?u] =>
        pose proof (uint_no_dot u) as H; simpl in H |- *; now rewrite ?H
    end.
Qed.

Lemma suffix_no_dot (i : Z) : strrchr ("_" ++ decimal i) "." = None.
Proof. rewrite strrchr_app, decimal_no_dot. reflexivity. Qed.

(** Inserting the suffix before the extension leaves the extension as it
    was. *)
Lemma suffixed_extension (filename : string) (i : Z) :
  strlen filename < PATH_MAX ->
  fst (split_name filename) ++ snd (split_name filename) = filename
  /\ get_extension (fst (split_name filename) ++ "_" ++ decimal i
                    ++ snd (split_name filename))
     = get_extension filename.
Proof.
  intros Hlen.
  destruct (strrchr filename ".") as [[|k]|] eqn:Hdot.
  - rewrite (split_name_plain filename (or_intror Hdot) Hlen). cbn [fst snd].
    split; [apply str_append_nil_r|].
    rewrite str_append_nil_r. unfold get_extension.
    rewrite strrchr_app, suffix_no_dot, Hdot. reflexivity.
  - destruct (strrchr_split "." filename (S k) Hdot) as (Heq & Hnone & Hk).
    set (stem := str_take (S k) filename) in *.
    set (e := str_drop (S (S k)) filename) in *.
    assert (Hstem : stem <> "") by (intros E; rewrite E in Hk; discriminate).
    assert (Hsplit : split_name filename = (stem, "." ++ e)).
    { rewrite Heq. apply split_name_dotted; try assumption.
      change (stem ++ "." ++ e) with (stem ++ String "." e). now rewrite <- Heq. }
    rewrite Hsplit. cbn [fst snd]. split; [now rewrite Heq|].
    transitivity (Some e).
    + assert (Hre : stem ++ "_" ++ decimal i ++ "." ++ e
                    = (stem ++ "_" ++ decimal i) ++ "." ++ e)
        by (now rewrite !str_append_assoc).
      rewrite Hre. apply get_extension_split; [|exact Hnone].
      destruct stem; [congruence | discriminate].
    + symmetry. rewrite Heq. now apply get_extension_split.
  - rewrite (split_name_plain filename (or_introl Hdot) Hlen). cbn [fst snd].
    split; [apply str_append_nil_r|].
    rewrite str_append_nil_r. unfold get_extension.
    rewrite strrchr_app, suffix_no_dot, Hdot. reflexivity.
Qed.

(** X6.  For a file name shorter than [PATH_MAX], the stem and the extension
    the resolver splits it into put together give the name back, and every
    suffixed name [stem_i ext] has the extension, hence the category, of the
    original: a renamed file stays in its category. *)
Theorem suffixed_name_keeps_category (filename : string) (i : Z) :
  strlen filename < PATH_MAX ->
  let stem := fst (split_name filename) in
  let sfx := snd (split_name filename) in
  stem ++ sfx = filename
  /\ get_extension (stem ++ "_" ++ decimal i ++ sfx) = get_extension filename
  /\ category_for_extension (get_extension (stem ++ "_" ++ decimal i ++ sfx))
     = category_for_extension (get_extension filename).
Proof.
  intros Hlen stem sfx.
  destruct (suffixed_extension filename i Hlen) as [Hjoin Hext].
  split; [exact Hjoin|]. split; [exact Hext|].
  unfold stem, sfx. now rewrite Hext.
Qed.

Lemma suffixed_name_keeps_category_witness :
  get_extension ("a.tar" ++ "_" ++ decimal 12 ++ ".gz") = get_extension "a.tar.gz".
Proof.
  apply (proj1 (proj2 (suffixed_name_keeps_category "a.tar.gz" 12 ltac:(vm_compute; reflexivity)))).
Defined.

(** ** Unique destination resolver: what a success means *)

Section ResolverSuccess.

Context `{os : OS}.

Variables (cdir name sfx : string) (out_size : Z) (w : World).
Hypothesis out_size_nonneg : 0 <= out_size.

Lemma suffix_loop_found (fuel : nat) :
  forall (i : Z) (out_path p : string) (w' : World),
    suffix_loop fuel i cdir name sfx out_path out_size w = ((true, p), w') ->
    exists k, i <= k < 10000
              /\ p = candidate cdir name k sfx
              /\ fits p out_size
              /\ os_stat (fs w) p = None.
Proof.
  induction fuel as [|fuel IH]; intros i out_path p w' Hrun; [discriminate|].
  rewrite suffix_loop_step in Hrun.
  destruct (Z.ltb_spec i 10000) as [Hi|Hi]; [|discriminate].
  cbv zeta in Hrun.
  set (buf := fst (snprintf out_path out_size (candidate cdir name i sfx))) in *.
  assert (Hnext : suffix_loop fuel (i + 1) cdir name sfx buf out_size w = ((true, p), w') ->
                  exists k, i <= k < 10000 /\ p = candidate cdir name k sfx
                            /\ fits p out_size /\ os_stat (fs w) p = None).
  { intros H. destruct (IH _ _ _ _ H) as (k & Hk & Hrest). exists k. split; [lia | exact Hrest]. }
  destruct (Z.geb_spec (strlen (candidate cdir name i sfx)) (int_of_size_t out_size))
    as [Hge|Hlt]; [now apply Hnext|].
  assert (Hfit : fits (candidate cdir name i sfx) out_size) by (unfold fits; lia).
  assert (Hbuf : buf = candidate cdir name i sfx)
    by (apply snprintf_fits; [exact out_size_nonneg | exact Hfit]).
  unfold bind, stat, ret in Hrun.
  destruct (os_stat (fs w) buf) eqn:Hst; [now apply Hnext|].
  inversion Hrun; subst p w'. exists i. rewrite Hbuf in *. repeat split; try lia; assumption.
Qed.

End ResolverSuccess.

Lemma build_unique_destination_success `{os : OS}
    (cdir filename out_path : string) (out_size : Z) (w w' : World) (p : string) :
  0 <= out_size ->
  build_unique_destination cdir filename out_path out_size w = ((0, p), w') ->
  w' = w
  /\ os_stat (fs w) p = None
  /\ (p = join_path out_path out_size cdir filename
      \/ exists k, 1 <= k < 10000
           /\ p = candidate cdir (fst (split_name filename)) k (snd (split_name filename))
           /\ fits p out_size).
Proof.
  intros Hsize. unfold build_unique_destination, bind, stat, ret.
  destruct (os_stat (fs w) (join_path out_path out_size cdir filename)) eqn:Hfirst.
  - destruct (split_name filename) as [name sfx]. cbn [fst snd].
    pose proof (suffix_loop_pure (Z.to_nat 9999) 1 cdir name sfx
                  (join_path out_path out_size cdir filename) out_size w) as Hpure.
    destruct (suffix_loop (Z.to_nat 9999) 1 cdir name sfx
                (join_path out_path out_size cdir filename) out_size w)
      as [[found q] w1] eqn:Hloop.
    cbn [snd] in Hpure. subst w1. destruct found.
    + intros H. inversion H; subst q w'.
      destruct (suffix_loop_found cdir name sfx out_size w Hsize _ _ _ _ _ Hloop)
        as (k & Hk & Hp & Hfit & Hfree).
      split; [reflexivity|]. split; [exact Hfree|]. right. exists k. auto.
    + rewrite logger_log_error. intros H. inversion H.
  - intros H. inversion H; subst p w'. auto.
Qed.

(** X7.  A path that [build_unique_destination] returns with status 0 did
    not exist when it looked, is either the plain joined path or a suffixed
    candidate numbered 1..9999, and fits the buffer; finding it changed
    nothing in the world. *)
Theorem build_unique_destination_returns_free `{os : OS}
    (cdir filename out_path : string) (out_size : Z) (w w' : World) (p : string) :
  0 < out_size ->
  build_unique_destination cdir filename out_path out_size w = ((0, p), w') ->
  w' = w
  /\ os_stat (fs w) p = None
  /\ strlen p < out_size
  /\ (p = join_path out_path out_size cdir filename
      \/ exists k, 1 <= k < 10000
           /\ p = candidate cdir (fst (split_name filename)) k (snd (split_name filename))).
Proof.
  intros Hsize Hrun.
  destruct (build_unique_destination_success cdir filename out_path out_size w w' p
              ltac:(lia) Hrun) as (Hw & Hfree & Hshape).
  split; [exact Hw|]. split; [exact Hfree|]. split.
  - destruct Hshape as [-> | (k & _ & _ & Hfit)].
    + rewrite join_path_take by lia. unfold strlen. rewrite length_str_take. lia.
    + unfold fits in Hfit. pose proof (int_of_size_t_le out_size ltac:(lia)). lia.
  - destruct Hshape as [-> | (k & Hk & Hp & _)]; [now left | right; now exists k].
Qed.

Lemma build_unique_destination_returns_free_witness :
  os_stat (fs (boot taken_disk)) "d/Documents/report_2.txt" = None
  /\ strlen "d/Documents/report_2.txt" < PATH_MAX.
Proof.
  destruct (build_unique_destination_returns_free (os := DiskOS)
              "d/Documents" "report.txt" "" PATH_MAX (boot taken_disk) (boot taken_disk)
              "d/Documents/report_2.txt" ltac:(unfold PATH_MAX; lia)
              ltac:(vm_compute; reflexivity))
    as (_ & Hfree & Hlen & _).
  split; [exact Hfree | exact Hlen].
Defined.

(** ** What a run touches *)

Section TraceFacts.

Context `{os : OS}.

Lemma effect_unique (w w' : World) (a b : list Event) :
  effect w w' a -> effect w w' b -> a = b.
Proof.
  intros [_ Ha] [_ Hb]. rewrite Ha in Hb. now apply app_inv_head in Hb.
Qed.

(** The provisioner's events: at most one [mkdir], of the joined path with
    mode 0755, followed by at most one line; without the [mkdir] the file
    system is as before. *)
Lemma ensure_directory_exists_trace (base_dir cat out_path : string)
    (out_size : Z) (w : World) :
  let p := join_path out_path out_size base_dir cat in
  exists rc w' new logs,
    ensure_directory_exists base_dir cat out_path out_size w = ((rc, p), w')
    /\ effect w w' new
    /\ (logs = [] \/ exists level msg, logs = [EvLog level msg])
    /\ ((new = logs /\ fs w' = fs w /\ os_stat (fs w) p <> None)
        \/ (new = EvMkdir p 493 :: logs /\ os_stat (fs w) p = None
            /\ (rc = 0 -> os_mkdir (fs w) p 493 = Some (fs w'))
            /\ (rc <> 0 -> os_mkdir (fs w) p 493 = None /\ fs w' = fs w)))
    /\ (rc = 0 \/ rc = -1).
Proof.
  intros p. unfold ensure_directory_exists, bind, stat, ret, mkdir. fold p.
  destruct (os_stat (fs w) p) as [m|] eqn:Hstat.
  - destruct (S_ISDIR m).
    + exists 0, w, [], []. split; [reflexivity|]. split; [apply effect_refl|].
      split; [now left|]. split; [|now left]. left. repeat split; congruence.
    + rewrite logger_log_error.
      eexists (-1), _, _, [EvLog LOG_LEVEL_ERROR (MsgExistsNotDirectory p)].
      split; [reflexivity|]. split; [apply effect_append|].
      split; [right; eauto|]. split; [|now right]. left. repeat split; congruence.
  - destruct (os_mkdir (fs w) p 493) as [fs'|] eqn:Hmk; cbn [negb Z.eqb].
    + match goal with |- context [logger_log ?l ?m ?x] =>
        destruct (logger_log_cases l m x) as [-> | ->] end.
      * eexists 0, _, [EvMkdir p 493], []. split; [reflexivity|].
        split; [now split|]. split; [now left|]. split; [|now left].
        right. repeat split; try reflexivity; congruence.
      * eexists 0, _, [EvMkdir p 493; EvLog LOG_LEVEL_INFO (MsgCreated p)],
                [EvLog LOG_LEVEL_INFO (MsgCreated p)].
        split; [reflexivity|]. split.
        { split; [reflexivity|]. simpl. now rewrite <- app_assoc. }
        split; [right; eauto|]. split; [|now left].
        right. repeat split; try reflexivity; congruence.
    + rewrite logger_log_error.
      eexists (-1), _, [EvMkdir p 493; EvLog LOG_LEVEL_ERROR (MsgCreateFailed p)],
              [EvLog LOG_LEVEL_ERROR (MsgCreateFailed p)].
      split; [reflexivity|]. split.
      { split; [reflexivity|]. simpl. now rewrite <- app_assoc. }
      split; [right; eauto|]. split; [|now right].
      right. repeat split; try reflexivity; congruence.
Qed.

End TraceFacts.

Section ScanTrace.

Context `{os : OS}.

Variables (cfg : OrganizerConfig) (base_dir : string).

(** The facts kept about the events [new] that led from [w] to [w']. *)
Let traced (name : string) (w w' : World) (new : list Event) : Prop :=
  effect w w' new
  /\ Forall (entry_event_ok cfg base_dir name) new
  /\ (existsb is_mutation new = false -> fs w' = fs w)
  /\ (length (filter is_mkdir new) <= 1)%nat
  /\ (length (filter is_rename new) <= 1)%nat.

Lemma traced_nothing (name : string) (w : World) : traced name w w [].
Proof.
  unfold traced. split; [apply effect_refl|]. simpl. repeat split; auto.
Qed.

Lemma traced_line (name : string) (w : World) (level : LogLevel) (msg : Message) :
  traced name w (append_events w [EvLog level msg]) [EvLog level msg].
Proof.
  unfold traced. split; [apply effect_append|]. simpl.
  repeat split; auto. constructor; [exact I | constructor].
Qed.

(** Lines printed after traced events keep them traced. *)
Lemma traced_then_line (name : string) (w w1 : World) (new : list Event)
    (level : LogLevel) (msg : Message) :
  traced name w w1 new ->
  traced name w (append_events w1 [EvLog level msg]) (new ++ [EvLog level msg]).
Proof.
  intros (Heff & Hok & Hfs & Hmk & Hrn). unfold traced.
  split; [exact (effect_trans _ _ _ _ _ Heff (effect_append w1 _))|].
  rewrite existsb_app, !filter_app. simpl. rewrite !app_nil_r, orb_false_r.
  repeat split; auto.
  apply Forall_app. split; [exact Hok|]. constructor; [exact I | constructor].
Qed.

Lemma scan_entry_trace (name : string) (l : Locals) (w : World) :
  exists l' w' new,
    scan_entry cfg base_dir name l w = (l', w') /\ traced name w w' new.
Proof.
  unfold scan_entry.
  destruct (String.eqb name "." || String.eqb name "..") eqn:Hname.
  { exists l, w, []. split; [reflexivity | apply traced_nothing]. }
  set (src := join_path (src_path l) PATH_MAX base_dir name).
  assert (Hsrc : src = join_path "" PATH_MAX base_dir name)
    by (apply join_path_any_buffer; discriminate).
  unfold bind at 1. unfold stat at 1. cbn [src_path set_src_path].
  destruct (os_stat (fs w) src) as [m|] eqn:Hstat.
  2:{ unfold bind, ret.
      match goal with |- context [logger_log ?lv ?m ?x] =>
        destruct (logger_log_cases lv m x) as [-> | ->] end.
      - eexists _, w, []. split; [reflexivity | apply traced_nothing].
      - eexists _, _, _. split; [reflexivity | apply traced_line]. }
  destruct (S_ISREG m); cbn [negb].
  2:{ unfold bind, ret. destruct (verbose cfg).
      - match goal with |- context [logger_log ?lv ?m ?x] =>
          destruct (logger_log_cases lv m x) as [-> | ->] end.
        + eexists _, w, []. split; [reflexivity | apply traced_nothing].
        + eexists _, _, _. split; [reflexivity | apply traced_line].
      - eexists _, w, []. split; [reflexivity | apply traced_nothing]. }
  set (cat := category_for_extension (get_extension name)).
  destruct (ensure_directory_exists_trace base_dir cat (category_dir (set_src_path l src))
              PATH_MAX w) as (rc & w1 & new1 & logs & Hens & Heff1 & Hlogs & Hshape & Hrc).
  cbn [category_dir set_src_path] in Hens, Hshape.
  set (cdir := join_path (category_dir l) PATH_MAX base_dir cat) in *.
  assert (Hcdir : cdir = category_path base_dir name)
    by (apply join_path_any_buffer; discriminate).
  assert (Hquiet : Forall (entry_event_ok cfg base_dir name) logs
                   /\ existsb is_mutation logs = false
                   /\ filter is_mkdir logs = [] /\ filter is_rename logs = []).
  { destruct Hlogs as [-> | (lv & msg & ->)]; simpl; repeat split; auto.
    constructor; [exact I | constructor]. }
  destruct Hquiet as (Hlogs_ok & Hlogs_mut & Hlogs_mk & Hlogs_rn).
  assert (Hstage1 : traced name w w1 new1 /\ filter is_rename new1 = []).
  { unfold traced. destruct Hshape as [(-> & Hfs & _) | (-> & Hnone & _)].
    - split; [split; [exact Heff1|] | exact Hlogs_rn].
      rewrite Hlogs_mk, Hlogs_rn. simpl. repeat split; auto.
    - split; [split; [exact Heff1|] | exact Hlogs_rn].
      cbn [filter is_mkdir is_rename existsb is_mutation orb].
      rewrite Hlogs_mk, Hlogs_rn. simpl. repeat split; auto; try discriminate.
      constructor; [|exact Hlogs_ok].
      simpl. rewrite Hcdir. repeat split; auto. apply category_in_names. }
  destruct Hstage1 as [Htr1 Hnoren1].
  unfold bind at 1. cbn [category_dir set_src_path]. rewrite Hens.
  destruct Hrc as [-> | ->]; cbn [negb Z.eqb].
  2:{ eexists _, w1, new1. split; [reflexivity | exact Htr1]. }
  cbn [category_dir dst_path set_category_dir set_src_path].
  destruct (build_unique_destination_effect cdir name (dst_path l) PATH_MAX w1)
    as (rc2 & dst & w2 & Hbuild & Hrc2).
  unfold bind at 1. rewrite Hbuild.
  destruct Hrc2 as [[-> ->] | [-> ->]]; cbn [negb Z.eqb].
  2:{ eexists _, _, _. split; [reflexivity | apply traced_then_line; eassumption]. }
  cbn [src_path dst_path set_dst_path set_category_dir set_src_path].
  destruct (dry_run cfg) eqn:Hdry.
  { unfold bind, ret.
    match goal with |- context [logger_log ?lv ?m ?x] =>
      destruct (logger_log_cases lv m x) as [-> | ->] end.
    - eexists _, w1, new1. split; [reflexivity | exact Htr1].
    - eexists _, _, _. split; [reflexivity | apply traced_then_line; eassumption]. }
  (* the rename *)
  destruct (build_unique_destination_success cdir name (dst_path l) PATH_MAX w1 w1 dst
              ltac:(unfold PATH_MAX; lia) Hbuild) as (_ & _ & Hdst).
  assert (Hmove : entry_event_ok cfg base_dir name (EvRename src dst)).
  { simpl. split; [exact Hdry|]. split; [exact Hname|]. split; [exact Hsrc|].
    rewrite <- Hcdir. destruct Hdst as [-> | (k & Hk & -> & _)].
    - left. apply join_path_any_buffer. discriminate.
    - right. now exists k. }
  assert (Htr2 : traced name w (snd (rename src dst w1)) (new1 ++ [EvRename src dst])).
  { destruct Htr1 as (Heff & Hok & Hfs & Hmk & Hrn). unfold traced.
    split; [exact (effect_trans _ _ _ _ _ Heff (rename_effect src dst w1))|].
    rewrite existsb_app, !filter_app, Hnoren1. simpl.
    rewrite app_nil_r, orb_true_r.
    repeat split; auto; try discriminate.
    apply Forall_app. split; [exact Hok|]. constructor; [exact Hmove | constructor]. }
  unfold bind at 1.
  destruct (rename src dst w1) as [rc3 w3] eqn:Hren. cbn [snd] in Htr2.
  assert (Hrc3 : rc3 = 0 \/ rc3 = -1).
  { unfold rename in Hren. destruct (os_rename (fs w1) src dst); inversion Hren; auto. }
  destruct Hrc3 as [-> | ->]; cbn [negb Z.eqb]; unfold bind, ret.
  - match goal with |- context [logger_log ?lv ?m ?x] =>
      destruct (logger_log_cases lv m x) as [-> | ->] end.
    + eexists _, w3, _. split; [reflexivity | exact Htr2].
    + eexists _, _, _. split; [reflexivity | apply traced_then_line; eassumption].
  - rewrite logger_log_error.
    eexists _, _, _. split; [reflexivity | apply traced_then_line; eassumption].
Qed.

End ScanTrace.

Section RunTrace.

Context `{os : OS}.

Variables (cfg : OrganizerConfig) (base_dir : string).

Lemma run_event_ok_here (name : string) (rest : list string) (e : Event) :
  entry_event_ok cfg base_dir name e -> run_event_ok cfg base_dir (name :: rest) e.
Proof. intros H. right. exists name. split; [now left | exact H]. Qed.

Lemma run_event_ok_later (name : string) (rest : list string) (e : Event) :
  run_event_ok cfg base_dir rest e -> run_event_ok cfg base_dir (name :: rest) e.
Proof.
  intros [H | (n & Hin & H)]; [now left|]. right. exists n. split; [now right | exact H].
Qed.

Lemma scan_trace (entries : list string) :
  forall (l : Locals) (w : World),
  exists l' w' new,
    scan cfg base_dir entries l w = (l', w')
    /\ effect w w' new
    /\ Forall (run_event_ok cfg base_dir entries) new
    /\ (existsb is_mutation new = false -> fs w' = fs w).
Proof.
  induction entries as [|name rest IH]; intros l w; simpl.
  - exists l, w, []. split; [reflexivity|]. split; [apply effect_refl|].
    split; [constructor | reflexivity].
  - pose proof (scan_entry_trace cfg base_dir name l w) as Hstep. cbv zeta in Hstep.
    destruct Hstep as (l1 & w1 & new1 & Hstep & Heff1 & Hok1 & Hfs1 & _).
    destruct (IH l1 w1) as (l2 & w2 & new2 & Hrest & Heff2 & Hok2 & Hfs2).
    exists l2, w2, (new1 ++ new2)%list. unfold bind. rewrite Hstep, Hrest.
    split; [reflexivity|]. split; [exact (effect_trans _ _ _ _ _ Heff1 Heff2)|].
    split.
    + apply Forall_app. split.
      * eapply Forall_impl; [|exact Hok1]. intros e. apply run_event_ok_here.
      * eapply Forall_impl; [|exact Hok2]. intros e. apply run_event_ok_later.
    + rewrite existsb_app. intros Hnone. apply orb_false_iff in Hnone as [H1 H2].
      rewrite (Hfs2 H2). now apply Hfs1.
Qed.

(** The whole of [organizer_run] on a configuration with a target: its
    status follows its ERROR lines, and each mutating call belongs to an
    entry of the directory stream. *)
Lemma organizer_run_trace (w : World) :
  target_dir cfg = Some base_dir ->
  exists rc w' new,
    organizer_run (Some cfg) w = (rc, w')
    /\ effect w w' new
    /\ flag_tracks 0 rc new
    /\ Forall (run_event_ok cfg base_dir
                 (match os_readdir (fs w) base_dir with
                  | Some entries => entries
                  | None => []
                  end)) new
    /\ (existsb is_mutation new = false -> fs w' = fs w).
Proof.
  intros Htarget. unfold organizer_run. rewrite Htarget.
  assert (Herr : forall msg entries,
             exists rc w' new,
               bind (logger_log LOG_LEVEL_ERROR msg) (fun _ => ret 1) w = (rc, w')
               /\ effect w w' new /\ flag_tracks 0 rc new
               /\ Forall (run_event_ok cfg base_dir entries) new
               /\ (existsb is_mutation new = false -> fs w' = fs w)).
  { intros msg entries. unfold bind, ret. rewrite logger_log_error.
    eexists 1, _, [EvLog LOG_LEVEL_ERROR msg]. split; [reflexivity|].
    split; [apply effect_append|]. split; [now right|].
    split; [|reflexivity]. constructor; [now left | constructor]. }
  unfold bind at 1. unfold stat.
  destruct (os_stat (fs w) base_dir) as [m|]; [|apply Herr].
  destruct (S_ISDIR m); cbn [negb]; [|apply Herr].
  unfold bind at 1. unfold opendir.
  destruct (os_readdir (fs w) base_dir) as [entries|]; [|apply Herr].
  unfold bind at 1.
  set (banner := MsgOrganizing base_dir (dry_run cfg)).
  assert (Hbanner : exists w0 new0,
             logger_log LOG_LEVEL_INFO banner w = (tt, w0) /\ effect w w0 new0
             /\ fs w0 = fs w /\ existsb is_mutation new0 = false
             /\ existsb is_error new0 = false
             /\ Forall (run_event_ok cfg base_dir entries) new0).
  { destruct (logger_log_cases LOG_LEVEL_INFO banner w) as [-> | ->].
    - exists w, []. repeat split; auto using effect_refl. now rewrite app_nil_r.
    - eexists _, [EvLog LOG_LEVEL_INFO banner]. repeat split; auto.
      constructor; [now left | constructor]. }
  destruct Hbanner as (w0 & new0 & -> & Heff0 & Hfs0 & Hmut0 & Herr0 & Hok0).
  destruct (scan_trace entries initial_locals w0)
    as (l & w' & new & Hscan & Heff & Hok & Hfs).
  destruct (scan_effect cfg base_dir entries initial_locals w0)
    as (l2 & w2 & new2 & Hscan2 & Heff2 & Hflag).
  rewrite Hscan in Hscan2. inversion Hscan2; subst l2 w2.
  rewrite <- (effect_unique _ _ _ _ Heff Heff2) in Hflag.
  unfold bind, ret. rewrite Hscan.
  exists (result l), w', (new0 ++ new)%list. split; [reflexivity|].
  split; [exact (effect_trans _ _ _ _ _ Heff0 Heff)|].
  split; [|split].
  - change (result initial_locals) with 0 in Hflag. unfold flag_tracks in *.
    rewrite existsb_app, Herr0. exact Hflag.
  - apply Forall_app. now split.
  - rewrite existsb_app, Hmut0. cbn [orb]. intros Hnone. rewrite (Hfs Hnone). exact Hfs0.
Qed.

End RunTrace.

Lemma organizer_run_flag `{os : OS} (config : option OrganizerConfig) (w : World) :
  exists rc w' new,
    organizer_run config w = (rc, w') /\ effect w w' new /\ flag_tracks 0 rc new.
Proof.
  assert (Herr : exists rc w' new,
             bind (logger_log LOG_LEVEL_ERROR MsgInvalidConfiguration) (fun _ => ret 1) w
             = (rc, w') /\ effect w w' new /\ flag_tracks 0 rc new).
  { unfold bind, ret. rewrite logger_log_error.
    eexists 1, _, _. split; [reflexivity|]. split; [apply effect_append | now right]. }
  destruct config as [cfg|]; [|exact Herr].
  destruct (target_dir cfg) as [base_dir|] eqn:Htarget.
  - destruct (organizer_run_trace cfg base_dir w Htarget)
      as (rc & w' & new & Hrun & Heff & Hflag & _).
    now exists rc, w', new.
  - unfold organizer_run. rewrite Htarget. exact Herr.
Qed.

Lemma existsb_none {A : Type} (f : A -> bool) (l : list A) :
  Forall (fun x => f x = false) l -> existsb f l = false.
Proof.
  induction 1 as [|x l Hx _ IH]; simpl; [reflexivity | now rewrite Hx, IH].
Qed.

(** X8.  The entries [.] and [..], an entry that cannot be stat'ed and an
    entry that [stat] does not report as a regular file are passed over: no
    [mkdir], no [rename], no ERROR line, the file system and the failure
    flag as they were. *)
Theorem scan_entry_skips `{os : OS} (cfg : OrganizerConfig) (base_dir name : string)
    (l : Locals) (w : World) :
  String.eqb name "." || String.eqb name ".." = true
  \/ match os_stat (fs w) (join_path "" PATH_MAX base_dir name) with
     | None => True
     | Some m => S_ISREG m = false
     end ->
  exists l' w' new,
    scan_entry cfg base_dir name l w = (l', w')
    /\ effect w w' new
    /\ fs w' = fs w
    /\ result l' = result l
    /\ existsb is_mutation new = false
    /\ existsb is_error new = false.
Proof.
  intros Hskip. unfold scan_entry.
  destruct (String.eqb name "." || String.eqb name "..") eqn:Hname.
  { exists l, w, []. repeat split; auto using effect_refl. now rewrite app_nil_r. }
  destruct Hskip as [Hdot | Hstat]; [discriminate|].
  rewrite (join_path_any_buffer "" (src_path l)) in Hstat by discriminate.
  set (src := join_path (src_path l) PATH_MAX base_dir name) in *.
  unfold bind at 1. unfold stat at 1. cbn [src_path set_src_path].
  destruct (os_stat (fs w) src) as [m|].
  - rewrite Hstat. cbn [negb]. unfold bind, ret. destruct (verbose cfg).
    + destruct (logger_log_cases LOG_LEVEL_DEBUG (MsgSkipNonRegular src) w) as [-> | ->].
      * eexists _, w, []. repeat split; auto using effect_refl. now rewrite app_nil_r.
      * eexists _, _, [_]. split; [reflexivity|]. split; [apply effect_append|].
        repeat split.
    + eexists _, w, []. repeat split; auto using effect_refl. now rewrite app_nil_r.
  - unfold bind, ret.
    destruct (logger_log_cases LOG_LEVEL_WARN (MsgSkipCannotStat src) w) as [-> | ->].
    + eexists _, w, []. repeat split; auto using effect_refl. now rewrite app_nil_r.
    + eexists _, _, [_]. split; [reflexivity|]. split; [apply effect_append|].
      repeat split.
Qed.

Lemma scan_entry_skips_witness :
  exists l' w' new,
    scan_entry move_d "d" "notes" initial_locals (boot fresh_disk) = (l', w')
    /\ effect (boot fresh_disk) w' new
    /\ fs w' = fs (boot fresh_disk)
    /\ result l' = result initial_locals
    /\ existsb is_mutation new = false
    /\ existsb is_error new = false.
Proof.
  apply (scan_entry_skips (os := DiskOS) move_d "d" "notes" initial_locals (boot fresh_disk)).
  right. vm_compute. reflexivity.
Defined.

(** X9.  Each iteration issues at most one [mkdir] and at most one [rename].
    The [mkdir] creates the entry's category directory (one of the nine
    names, directly under the target) with mode 0755; the [rename], never
    issued in a dry run nor for [.] and [..], takes the entry's own path to
    the plain or a suffixed name inside that directory.  Without either the
    file system is as before. *)
Theorem scan_entry_touches_once `{os : OS} (cfg : OrganizerConfig)
    (base_dir name : string) (l : Locals) (w : World) :
  exists l' w' new,
    scan_entry cfg base_dir name l w = (l', w')
    /\ effect w w' new
    /\ Forall (entry_event_ok cfg base_dir name) new
    /\ (existsb is_mutation new = false -> fs w' = fs w)
    /\ (length (filter is_mkdir new) <= 1)%nat
    /\ (length (filter is_rename new) <= 1)%nat.
Proof.
  pose proof (scan_entry_trace cfg base_dir name l w) as H. cbv zeta in H.
  destruct H as (l' & w' & new & Hrun & H). now exists l', w', new.
Qed.

(** X10.  In a whole run every mutating call belongs to a name of the
    directory stream: the [mkdir] of that entry's category directory or the
    [rename] of that entry; and a run that issued no mutating call left the
    file system as it was. *)
Theorem organizer_run_touches_only_entries `{os : OS} (cfg : OrganizerConfig)
    (base_dir : string) (w : World) :
  target_dir cfg = Some base_dir ->
  exists rc w' new,
    organizer_run (Some cfg) w = (rc, w')
    /\ effect w w' new
    /\ Forall (run_event_ok cfg base_dir
                 (match os_readdir (fs w) base_dir with
                  | Some entries => entries
                  | None => []
                  end)) new
    /\ (existsb is_mutation new = false -> fs w' = fs w).
Proof.
  intros Htarget.
  destruct (organizer_run_trace cfg base_dir w Htarget)
    as (rc & w' & new & Hrun & Heff & _ & Hok & Hfs).
  now exists rc, w', new.
Qed.

Lemma organizer_run_touches_only_entries_witness :
  exists rc w' new,
    organizer_run (Some move_d) (boot fresh_disk) = (rc, w')
    /\ effect (boot fresh_disk) w' new
    /\ Forall (run_event_ok move_d "d" ["."; ".."; "a.jpg"; "b.txt"; "c"; "notes"]) new
    /\ (existsb is_mutation new = false -> fs w' = fs (boot fresh_disk)).
Proof.
  exact (organizer_run_touches_only_entries (os := DiskOS) move_d "d" (boot fresh_disk)
           eq_refl).
Defined.

(** X11.  A dry run never issues a [rename]: its only mutating calls are
    [mkdir]s, with mode 0755, of category directories directly under the
    target. *)
Theorem dry_run_never_renames `{os : OS} (cfg : OrganizerConfig) (w : World) :
  dry_run cfg = true ->
  exists rc w' new,
    organizer_run (Some cfg) w = (rc, w')
    /\ effect w w' new
    /\ existsb is_rename new = false
    /\ Forall (fun e =>
                 is_mutation e = true ->
                 exists base_dir cat,
                   target_dir cfg = Some base_dir /\ In cat CATEGORY_NAMES
                   /\ e = EvMkdir (join_path "" PATH_MAX base_dir cat) 493) new.
Proof.
  intros Hdry.
  destruct (target_dir cfg) as [base_dir|] eqn:Htarget.
  - destruct (organizer_run_trace cfg base_dir w Htarget)
      as (rc & w' & new & Hrun & Heff & _ & Hok & _).
    exists rc, w', new. split; [exact Hrun|]. split; [exact Heff|].
    assert (Hboth : Forall (fun e =>
                      is_rename e = false
                      /\ (is_mutation e = true ->
                          exists b cat, Some base_dir = Some b /\ In cat CATEGORY_NAMES
                                        /\ e = EvMkdir (join_path "" PATH_MAX b cat) 493))
                      new).
    { eapply Forall_impl; [|exact Hok]. intros e [Hquiet | (name & _ & Hentry)].
      - split; [now destruct e | congruence].
      - destruct e as [p mode | src dst | lv msg]; simpl in Hentry.
        + split; [reflexivity|]. intros _. destruct Hentry as (-> & -> & Hcat).
          exists base_dir, (category_for_extension (get_extension name)). auto.
        + destruct Hentry as (Hfalse & _). congruence.
        + split; [reflexivity | discriminate]. }
    split.
    + apply existsb_none. eapply Forall_impl; [|exact Hboth]. now intros e [H _].
    + eapply Forall_impl; [|exact Hboth]. now intros e [_ H].
  - unfold organizer_run. rewrite Htarget. unfold bind, ret. rewrite logger_log_error.
    eexists 1, _, [_]. split; [reflexivity|]. split; [apply effect_append|].
    split; [reflexivity|]. constructor; [discriminate | constructor].
Qed.

Lemma dry_run_never_renames_witness :
  exists rc w' new,
    organizer_run (Some dry_d) (boot fresh_disk) = (rc, w')
    /\ effect (boot fresh_disk) w' new
    /\ existsb is_rename new = false
    /\ Forall (fun e =>
                 is_mutation e = true ->
                 exists base_dir cat,
                   target_dir dry_d = Some base_dir /\ In cat CATEGORY_NAMES
                   /\ e = EvMkdir (join_path "" PATH_MAX base_dir cat) 493) new.
Proof.
  exact (dry_run_never_renames (os := DiskOS) dry_d (boot fresh_disk) eq_refl).
Defined.

(** X12.  For every configuration, the status of [organizer_run] is 0
    exactly when the run printed no ERROR line, validation included, and the
    run leaves the logger's level as it found it. *)
Theorem organizer_run_fails_iff_error_line `{os : OS}
    (config : option OrganizerConfig) (w : World) :
  exists rc w' new,
    organizer_run config w = (rc, w')
    /\ events w' = (events w ++ new)%list
    /\ current_level w' = current_level w
    /\ (rc = 0 <-> existsb is_error new = false)
    /\ (rc <> 0 <-> existsb is_error new = true).
Proof.
  destruct (organizer_run_flag config w) as (rc & w' & new & Hrun & [Hlvl Hev] & Hflag).
  exists rc, w', new. repeat (split; [assumption|]).
  destruct Hflag as [[-> Hq] | [-> He]]; rewrite ?Hq, ?He; split; split;
    congruence.
Qed.

(** ** Verbosity does not steer the run *)

Section Agreement.

Context `{os : OS}.

Lemma mutations_snoc (evs : list Event) (e : Event) :
  mutations (evs ++ [e]) = (mutations evs ++ if is_mutation e then [e] else [])%list.
Proof. unfold mutations. rewrite filter_app. simpl. now destruct (is_mutation e). Qed.

Lemma agree_ret {A : Type} (a : A) : agree (ret a) (ret a).
Proof. intros w1 w2 H. now split. Qed.

Lemma agree_bind {A B : Type} (c1 c2 : M A) (k1 k2 : A -> M B) :
  agree c1 c2 -> (forall a, agree (k1 a) (k2 a)) -> agree (bind c1 k1) (bind c2 k2).
Proof.
  intros Hc Hk w1 w2 H. unfold bind.
  destruct (Hc w1 w2 H) as [Ha Hw].
  destruct (c1 w1) as [a1 w1'], (c2 w2) as [a2 w2']. cbn [fst snd] in *. subst a2.
  now apply Hk.
Qed.

Lemma agree_stat (path : string) : agree (stat path) (stat path).
Proof. intros w1 w2 [Hfs Hmut]. unfold stat. cbn [fst snd]. rewrite Hfs. now split. Qed.

Lemma agree_opendir (path : string) : agree (opendir path) (opendir path).
Proof. intros w1 w2 [Hfs Hmut]. unfold opendir. cbn [fst snd]. rewrite Hfs. now split. Qed.

Lemma agree_mkdir (path : string) (mode : Z) : agree (mkdir path mode) (mkdir path mode).
Proof.
  intros w1 w2 [Hfs Hmut]. unfold mkdir. rewrite Hfs.
  destruct (os_mkdir (fs w2) path mode); cbn [fst snd]; (split; [reflexivity|]);
    split; cbn [fs events]; auto; rewrite !mutations_snoc; now rewrite Hmut.
Qed.

Lemma agree_rename (src dst : string) : agree (rename src dst) (rename src dst).
Proof.
  intros w1 w2 [Hfs Hmut]. unfold rename. rewrite Hfs.
  destruct (os_rename (fs w2) src dst); cbn [fst snd]; (split; [reflexivity|]);
    split; cbn [fs events]; auto; rewrite !mutations_snoc; now rewrite Hmut.
Qed.

Lemma alike_line_left (w1 w2 : World) (level : LogLevel) (msg : Message) :
  alike w1 w2 -> alike (snd (logger_log level msg w1)) w2.
Proof.
  intros [Hfs Hmut]. destruct (logger_log_cases level msg w1) as [-> | ->];
    [now split|]. split; [exact Hfs|]. cbn [snd append_events events].
  rewrite mutations_snoc. simpl. now rewrite app_nil_r.
Qed.

Lemma alike_sym (w1 w2 : World) : alike w1 w2 -> alike w2 w1.
Proof. intros [H1 H2]. now split. Qed.

(** Whether a line is printed, and which, is invisible to the run. *)
Lemma agree_logger_log (l1 l2 : LogLevel) (m1 m2 : Message) :
  agree (logger_log l1 m1) (logger_log l2 m2).
Proof.
  intros w1 w2 H. split.
  - now destruct (fst (logger_log l1 m1 w1)), (fst (logger_log l2 m2 w2)).
  - apply alike_line_left. apply alike_sym. apply alike_line_left. now apply alike_sym.
Qed.

Lemma agree_line_or_not (b1 b2 : bool) (l1 l2 : LogLevel) (m1 m2 : Message) :
  agree (if b1 then logger_log l1 m1 else ret tt)
        (if b2 then logger_log l2 m2 else ret tt).
Proof.
  intros w1 w2 H. split.
  - now destruct (fst ((if b1 then logger_log l1 m1 else ret tt) w1)),
                 (fst ((if b2 then logger_log l2 m2 else ret tt) w2)).
  - destruct b1, b2; cbn [ret snd].
    + now apply agree_logger_log.
    + now apply alike_line_left.
    + apply alike_sym, alike_line_left. now apply alike_sym.
    + exact H.
Qed.

Lemma agree_ensure_directory_exists (base_dir cat out_path : string) (out_size : Z) :
  agree (ensure_directory_exists base_dir cat out_path out_size)
        (ensure_directory_exists base_dir cat out_path out_size).
Proof.
  unfold ensure_directory_exists. cbv zeta.
  apply agree_bind; [apply agree_stat|]. intros [m|].
  - destruct (S_ISDIR m); [apply agree_ret|].
    apply agree_bind; [apply agree_logger_log | intros _; apply agree_ret].
  - apply agree_bind; [apply agree_mkdir|]. intros rc.
    destruct (negb (rc =? 0));
      (apply agree_bind; [apply agree_logger_log | intros _; apply agree_ret]).
Qed.

Lemma agree_suffix_loop (cdir name sfx : string) (out_size : Z) (fuel : nat) :
  forall (i : Z) (out_path : string),
    agree (suffix_loop fuel i cdir name sfx out_path out_size)
          (suffix_loop fuel i cdir name sfx out_path out_size).
Proof.
  induction fuel as [|fuel IH]; intros i out_path; [apply agree_ret|].
  rewrite suffix_loop_step. destruct (i <? 10000); [|apply agree_ret].
  cbv zeta. destruct (strlen (candidate cdir name i sfx) >=? int_of_size_t out_size);
    [apply IH|].
  apply agree_bind; [apply agree_stat|]. intros [m|]; [apply IH | apply agree_ret].
Qed.

Lemma agree_build_unique_destination (cdir filename out_path : string) (out_size : Z) :
  agree (build_unique_destination cdir filename out_path out_size)
        (build_unique_destination cdir filename out_path out_size).
Proof.
  unfold build_unique_destination. cbv zeta.
  apply agree_bind; [apply agree_stat|]. intros [m|]; [|apply agree_ret].
  destruct (split_name filename) as [name sfx].
  apply agree_bind; [apply agree_suffix_loop|]. intros [found p].
  destruct found; [apply agree_ret|].
  apply agree_bind; [apply agree_logger_log | intros _; apply agree_ret].
Qed.

Variables (cfg1 cfg2 : OrganizerConfig).
Hypothesis same_target : target_dir cfg1 = target_dir cfg2.
Hypothesis same_dry_run : dry_run cfg1 = dry_run cfg2.

Lemma agree_scan_entry (base_dir name : string) (l : Locals) :
  agree (scan_entry cfg1 base_dir name l) (scan_entry cfg2 base_dir name l).
Proof.
  unfold scan_entry. rewrite <- same_dry_run.
  destruct (String.eqb name "." || String.eqb name ".."); [apply agree_ret|].
  cbv zeta. apply agree_bind; [apply agree_stat|]. intros [m|].
  2:{ apply agree_bind; [apply agree_logger_log | intros _; apply agree_ret]. }
  destruct (negb (S_ISREG m)).
  { apply agree_bind; [apply agree_line_or_not | intros _; apply agree_ret]. }
  apply agree_bind; [apply agree_ensure_directory_exists|]. intros [rc buf].
  destruct (negb (rc =? 0)); [apply agree_ret|].
  apply agree_bind; [apply agree_build_unique_destination|]. intros [rc2 dst].
  destruct (negb (rc2 =? 0)); [apply agree_ret|].
  destruct (dry_run cfg1).
  { apply agree_bind; [apply agree_logger_log | intros _; apply agree_ret]. }
  apply agree_bind; [apply agree_rename|]. intros rc3.
  destruct (negb (rc3 =? 0));
    (apply agree_bind; [apply agree_logger_log | intros _; apply agree_ret]).
Qed.

Lemma agree_scan (base_dir : string) (entries : list string) :
  forall l, agree (scan cfg1 base_dir entries l) (scan cfg2 base_dir entries l).
Proof.
  induction entries as [|name rest IH]; intros l; simpl; [apply agree_ret|].
  apply agree_bind; [apply agree_scan_entry | exact IH].
Qed.

Lemma agree_organizer_run :
  agree (organizer_run (Some cfg1)) (organizer_run (Some cfg2)).
Proof.
  unfold organizer_run. rewrite <- same_target.
  destruct (target_dir cfg1) as [base_dir|].
  2:{ apply agree_bind; [apply agree_logger_log | intros _; apply agree_ret]. }
  apply agree_bind; [apply agree_stat|]. intros [m|].
  2:{ apply agree_bind; [apply agree_logger_log | intros _; apply agree_ret]. }
  destruct (negb (S_ISDIR m)).
  { apply agree_bind; [apply agree_logger_log | intros _; apply agree_ret]. }
  apply agree_bind; [apply agree_opendir|]. intros [entries|].
  2:{ apply agree_bind; [apply agree_logger_log | intros _; apply agree_ret]. }
  apply agree_bind; [apply agree_logger_log|]. intros _.
  apply agree_bind; [apply agree_scan | intros l; apply agree_ret].
Qed.

End Agreement.

(** X13.  Neither the [verbose] flag nor the logger's level nor the lines
    printed so far steer a run: two runs with the same target and dry-run
    flag, started on the same file system with the same mutating calls
    behind them, return the same status, issue the same mutating calls in
    the same order and end on the same file system. *)
Theorem organizer_run_ignores_verbosity `{os : OS} (cfg1 cfg2 : OrganizerConfig)
    (w1 w2 : World) :
  target_dir cfg1 = target_dir cfg2 ->
  dry_run cfg1 = dry_run cfg2 ->
  fs w1 = fs w2 ->
  mutations (events w1) = mutations (events w2) ->
  fst (organizer_run (Some cfg1) w1) = fst (organizer_run (Some cfg2) w2)
  /\ fs (snd (organizer_run (Some cfg1) w1)) = fs (snd (organizer_run (Some cfg2) w2))
  /\ mutations (events (snd (organizer_run (Some cfg1) w1)))
     = mutations (events (snd (organizer_run (Some cfg2) w2))).
Proof.
  intros Htarget Hdry Hfs Hmut.
  destruct (agree_organizer_run cfg1 cfg2 Htarget Hdry w1 w2 (conj Hfs Hmut))
    as (Hrc & Hfs' & Hmut').
  auto.
Qed.

Lemma organizer_run_ignores_verbosity_witness :
  let quiet := mkWorld (os := DiskOS) fresh_disk LOG_LEVEL_ERROR [] in
  let chatty := mkWorld (os := DiskOS) fresh_disk LOG_LEVEL_DEBUG [] in
  fst (organizer_run (Some (mkConfig (Some "d") false false)) quiet)
  = fst (organizer_run (Some (mkConfig (Some "d") false true)) chatty)
  /\ mutations (events (snd (organizer_run (Some (mkConfig (Some "d") false false)) quiet)))
     = mutations (events (snd (organizer_run (Some (mkConfig (Some "d") false true)) chatty))).
Proof.
  cbv zeta.
  destruct (organizer_run_ignores_verbosity (os := DiskOS)
              (mkConfig (Some "d") false false) (mkConfig (Some "d") false true)
              (mkWorld (os := DiskOS) fresh_disk LOG_LEVEL_ERROR [])
              (mkWorld (os := DiskOS) fresh_disk LOG_LEVEL_DEBUG [])
              eq_refl eq_refl eq_refl eq_refl) as (Hrc & _ & Hmut).
  split; [exact Hrc | exact Hmut].
Defined.

(** ** Directory provisioner: the creating path *)

(** X14.  When nothing exists at the joined path, [ensure_directory_exists]
    issues exactly one [mkdir] of that path with mode 0755.  If the call
    succeeds the status is 0 and no ERROR line follows; if it fails the
    status is -1, the file system is as before and the ERROR line
    "Failed to create directory" is printed. *)
Theorem ensure_directory_exists_creates `{os : OS} (base_dir cat out_path : string)
    (out_size : Z) (w : World) :
  os_stat (fs w) (join_path out_path out_size base_dir cat) = None ->
  let p := join_path out_path out_size base_dir cat in
  exists rc w' logs,
    ensure_directory_exists base_dir cat out_path out_size w = ((rc, p), w')
    /\ events w' = (events w ++ EvMkdir p 493 :: logs)%list
    /\ existsb is_mutation logs = false
    /\ ((rc = 0 /\ os_mkdir (fs w) p 493 = Some (fs w')
         /\ existsb is_error logs = false)
        \/ (rc = -1 /\ os_mkdir (fs w) p 493 = None /\ fs w' = fs w
            /\ logs = [EvLog LOG_LEVEL_ERROR (MsgCreateFailed p)])).
Proof.
  intros Hstat p. change (os_stat (fs w) p = None) in Hstat.
  unfold ensure_directory_exists, bind, stat, ret, mkdir.
  change (join_path out_path out_size base_dir cat) with p. rewrite Hstat.
  destruct (os_mkdir (fs w) p 493) as [fs'|] eqn:Hmk; cbn [negb Z.eqb].
  - match goal with |- context [logger_log ?l ?m ?x] =>
      destruct (logger_log_cases l m x) as [-> | ->] end.
    + eexists 0, _, []. split; [reflexivity|]. cbn [events fs]. repeat split. left. auto.
    + eexists 0, _, [EvLog LOG_LEVEL_INFO (MsgCreated p)]. split; [reflexivity|].
      cbn [events fs append_events]. rewrite <- app_assoc. repeat split. left. auto.
  - rewrite logger_log_error.
    eexists (-1), _, [EvLog LOG_LEVEL_ERROR (MsgCreateFailed p)]. split; [reflexivity|].
    cbn [events fs append_events]. rewrite <- app_assoc. repeat split. right. auto.
Qed.

Lemma ensure_directory_exists_creates_witness :
  exists rc w' logs,
    ensure_directory_exists "d" "Images" "" PATH_MAX (boot locked_disk)
    = ((rc, "d/Images"), w')
    /\ events w' = (events (boot locked_disk) ++ EvMkdir "d/Images" 493 :: logs)%list
    /\ existsb is_mutation logs = false
    /\ ((rc = 0 /\ os_mkdir (fs (boot locked_disk)) "d/Images" 493 = Some (fs w')
         /\ existsb is_error logs = false)
        \/ (rc = -1 /\ os_mkdir (fs (boot locked_disk)) "d/Images" 493 = None
            /\ fs w' = fs (boot locked_disk)
            /\ logs = [EvLog LOG_LEVEL_ERROR (MsgCreateFailed "d/Images")])).
Proof.
  exact (ensure_directory_exists_creates (os := DiskOS) "d" "Images" "" PATH_MAX
           (boot locked_disk) eq_refl).
Defined.

(** ** A file named like its own category *)

(** X15.  A regular entry whose name is its own category (the file called
    [Other]) is never organised: the path where its category directory
    should be is the file itself, so the iteration prints "Path exists but
    is not a directory", raises the flag and changes nothing, dry run or
    not. *)
Theorem self_named_entry_fails `{os : OS} (cfg : OrganizerConfig)
    (base_dir name : string) (l : Locals) (w : World) (m : file_type) :
  category_for_extension (get_extension name) = name ->
  os_stat (fs w) (join_path "" PATH_MAX base_dir name) = Some m ->
  S_ISREG m = true ->
  exists l',
    scan_entry cfg base_dir name l w
    = (l', append_events w
             [EvLog LOG_LEVEL_ERROR
                (MsgExistsNotDirectory (join_path "" PATH_MAX base_dir name))])
    /\ result l' = 1.
Proof.
  intros Hself Hstat Hreg.
  assert (Hname : String.eqb name "." || String.eqb name ".." = false).
  { pose proof (category_in_names (get_extension name)) as Hin. rewrite Hself in Hin.
    pose proof (proj1 (forallb_forall
                         (fun c => negb (String.eqb c "." || String.eqb c ".."))
                         CATEGORY_NAMES) eq_refl name Hin) as Hnot.
    now apply negb_true_iff in Hnot. }
  assert (Hsrc : join_path (src_path l) PATH_MAX base_dir name
                 = join_path "" PATH_MAX base_dir name)
    by (apply join_path_any_buffer; discriminate).
  assert (Hcat : join_path (category_dir l) PATH_MAX base_dir name
                 = join_path "" PATH_MAX base_dir name)
    by (apply join_path_any_buffer; discriminate).
  assert (Hdir : S_ISDIR m = false) by (destruct m; discriminate || reflexivity).
  unfold scan_entry. rewrite Hname.
  unfold bind at 1. unfold stat at 1. cbn [src_path set_src_path].
  rewrite Hsrc, Hstat, Hreg. cbn [negb].
  unfold bind at 1. cbn [category_dir set_src_path].
  unfold ensure_directory_exists, bind, stat, ret.
  rewrite Hself, Hcat, Hstat, Hdir, logger_log_error. cbn [negb Z.eqb].
  eexists. split; reflexivity.
Qed.

Lemma self_named_entry_fails_witness :
  exists l',
    scan_entry dry_d "d" "Other" initial_locals
      (boot (disk_of [("d", IDirectory); ("d/Other", IRegular)] "d" ["Other"] []))
    = (l', append_events
             (boot (disk_of [("d", IDirectory); ("d/Other", IRegular)] "d" ["Other"] []))
             [EvLog LOG_LEVEL_ERROR (MsgExistsNotDirectory (join_path "" PATH_MAX "d" "Other"))])
    /\ result l' = 1.
Proof.
  apply (self_named_entry_fails (os := DiskOS) dry_d "d" "Other" initial_locals
           (boot (disk_of [("d", IDirectory); ("d/Other", IRegular)] "d" ["Other"] []))
           S_IFREG); reflexivity.
Defined.

(** ** Command line *)

Lemma parse_args_app (progname : string) (n : nat) :
  forall args config config' more,
    (length args <= n)%nat ->
    parse_args progname args config = ParseRun config' ->
    parse_args progname (args ++ more) config = parse_args progname more config'.
Proof.
  induction n as [|n IH]; intros args config config' more Hlen Hrun.
  - destruct args; [|simpl in Hlen; lia]. simpl in Hrun. now inversion Hrun.
  - destruct args as [|arg rest]; [simpl in Hrun; now inversion Hrun|].
    cbn [parse_args app] in *. simpl in Hlen.
    destruct (String.eqb arg "-h" || String.eqb arg "--help"); [discriminate|].
    destruct (String.eqb arg "-n" || String.eqb arg "--dry-run");
      [apply IH; [lia | exact Hrun]|].
    destruct (String.eqb arg "-v" || String.eqb arg "--verbose");
      [apply IH; [lia | exact Hrun]|].
    destruct (String.eqb arg "-d" || String.eqb arg "--dir").
    + destruct rest as [|dir rest']; [discriminate|]. cbn [app].
      apply IH; [simpl in Hlen; lia | exact Hrun].
    + destruct (starts_with_dash arg); [discriminate|].
      apply IH; [lia | exact Hrun].
Qed.

Lemma parse_args_exit_code (progname : string) (n : nat) :
  forall args config rc out,
    (length args <= n)%nat ->
    parse_args progname args config = ParseExit rc out -> rc = 0 \/ rc = 1.
Proof.
  induction n as [|n IH]; intros args config rc out Hlen Hexit.
  - destruct args; [discriminate | simpl in Hlen; lia].
  - destruct args as [|arg rest]; [discriminate|].
    cbn [parse_args] in Hexit. simpl in Hlen.
    destruct (String.eqb arg "-h" || String.eqb arg "--help");
      [inversion Hexit; now left|].
    destruct (String.eqb arg "-n" || String.eqb arg "--dry-run");
      [eapply IH; [|exact Hexit]; lia|].
    destruct (String.eqb arg "-v" || String.eqb arg "--verbose");
      [eapply IH; [|exact Hexit]; lia|].
    destruct (String.eqb arg "-d" || String.eqb arg "--dir").
    + destruct rest as [|dir rest']; [inversion Hexit; now right|].
      eapply IH; [|exact Hexit]. simpl in Hlen. lia.
    + destruct (starts_with_dash arg); [inversion Hexit; now right|].
      eapply IH; [|exact Hexit]. lia.
Qed.

Lemma positional_is_no_option (dir : string) :
  starts_with_dash dir = false ->
  String.eqb dir "-h" || String.eqb dir "--help" = false
  /\ String.eqb dir "-n" || String.eqb dir "--dry-run" = false
  /\ String.eqb dir "-v" || String.eqb dir "--verbose" = false
  /\ String.eqb dir "-d" || String.eqb dir "--dir" = false.
Proof.
  destruct dir as [|c rest]; [repeat split|].
  cbn [starts_with_dash]. intros Hc. cbn [String.eqb]. rewrite Hc. repeat split.
Qed.

(** X16.  Arguments are read left to right and the reading of a prefix that
    ends without an early exit carries over to what follows.  Hence the last
    directory given wins, positionally (any argument not starting with a
    dash) or after [-d] (any argument at all, even one that looks like an
    option); a later [-h] prints the usage and exits with 0; and a final
    [-d] without its argument exits with 1. *)
Theorem parse_args_left_to_right (progname : string) (args : list string)
    (config config' : OrganizerConfig) :
  parse_args progname args config = ParseRun config' ->
  (forall more,
      parse_args progname (args ++ more) config = parse_args progname more config')
  /\ (forall dir, starts_with_dash dir = false ->
        parse_args progname (args ++ [dir]) config
        = ParseRun (set_target_dir config' dir))
  /\ (forall dir,
        parse_args progname (args ++ ["-d"; dir]) config
        = ParseRun (set_target_dir config' dir))
  /\ (forall more,
        parse_args progname (args ++ "-h" :: more) config
        = ParseExit 0 [ConUsage progname])
  /\ parse_args progname (args ++ ["-d"]) config
     = ParseExit 1 [ConMissingArgument "-d"; ConUsage progname].
Proof.
  intros Hrun.
  assert (Happ := fun more =>
            parse_args_app progname (length args) args config config' more
              (le_n _) Hrun).
  split; [exact Happ|].
  split; [|split; [|split]].
  - intros dir Hdir. rewrite Happ. cbn [parse_args].
    destruct (positional_is_no_option dir Hdir) as (-> & -> & -> & ->).
    now rewrite Hdir.
  - intros dir. rewrite Happ. reflexivity.
  - intros more. rewrite Happ. reflexivity.
  - rewrite Happ. reflexivity.
Qed.

Lemma parse_args_left_to_right_witness :
  parse_args "file_organizer" (["-n"; "-d"; "a"] ++ ["b"]) default_config
  = ParseRun (mkConfig (Some "b") true false)
  /\ parse_args "file_organizer" (["-n"; "-d"; "a"] ++ ["-d"; "-v"]) default_config
     = ParseRun (mkConfig (Some "-v") true false).
Proof.
  destruct (parse_args_left_to_right "file_organizer" ["-n"; "-d"; "a"] default_config
              (mkConfig (Some "a") true false) eq_refl)
    as (_ & Hpos & Hdir & _).
  split; [exact (Hpos "b" eq_refl) | exact (Hdir "-v")].
Defined.

(** X17.  [main] exits with 0 or 1.  When the argument loop ends early
    (usage error or [-h]) the world is untouched: no system call, no logger
    line.  Otherwise the logger's level ends at DEBUG if [-v] was given and
    INFO if not, the exit status is the organizer's, and the line "File
    organization failed" is printed exactly when that status is not 0. *)
Theorem main_outcome `{os : OS} (argv : list string) (w : World) :
  exists rc out w',
    main argv w = ((rc, out), w')
    /\ (rc = 0 \/ rc = 1)
    /\ match parse_args (hd "" argv) (tl argv) default_config with
       | ParseExit code text => rc = code /\ out = text /\ w' = w
       | ParseRun config =>
           let level := if verbose config then LOG_LEVEL_DEBUG else LOG_LEVEL_INFO in
           organizer_run (Some config) (mkWorld (fs w) level (events w)) = (rc, w')
           /\ current_level w' = level
           /\ out = (if rc =? 0 then [] else [ConFailed rc])
       end.
Proof.
  unfold main.
  destruct (parse_args (hd "" argv) (tl argv) default_config) as [code text|config] eqn:Hparse.
  - exists code, text, w. split; [reflexivity|]. split; [|auto].
    exact (parse_args_exit_code _ _ _ _ _ _ (le_n _) Hparse).
  - cbv zeta. set (level := if verbose config then LOG_LEVEL_DEBUG else LOG_LEVEL_INFO).
    assert (Hset : (if verbose config
                    then logger_set_level LOG_LEVEL_DEBUG
                    else logger_set_level LOG_LEVEL_INFO) w
                   = (tt, mkWorld (fs w) level (events w)))
      by (unfold level; now destruct (verbose config)).
    unfold bind at 1. rewrite Hset.
    destruct (organizer_run_flag (Some config) (mkWorld (fs w) level (events w)))
      as (rc & w' & new & Hrun & [Hlvl _] & Hflag).
    cbn [current_level] in Hlvl.
    unfold bind, ret. rewrite Hrun.
    assert (Hshown : (level_value LOG_LEVEL_ERROR >? level_value (current_level w')) = false)
      by (rewrite Hlvl; unfold level; now destruct (verbose config)).
    destruct Hflag as [[-> _] | [-> _]]; cbn [negb Z.eqb].
    + exists 0, [], w'. repeat split; auto.
    + rewrite Hshown. exists 1, [ConFailed 1], w'. repeat split; auto.
Qed.

(** ** Logger *)

(** X18.  After [logger_set_level c], a line of level [l] is printed exactly
    when [l] is at most [c]; ERROR lines are printed whatever the level, and
    a line printed at one level is printed at every more verbose one.  The
    logger never touches the file system. *)
Theorem logger_filter `{os : OS} (c : LogLevel) (level : LogLevel) (msg : Message)
    (w : World) :
  let w1 := snd (logger_set_level c w) in
  let shown (c' : LogLevel) :=
    events (snd (logger_log level msg (snd (logger_set_level c' w))))
    = (events w ++ [EvLog level msg])%list in
  let hidden (c' : LogLevel) :=
    events (snd (logger_log level msg (snd (logger_set_level c' w)))) = events w in
  (level_value level <= level_value c -> shown c)
  /\ (level_value c < level_value level -> hidden c)
  /\ (level = LOG_LEVEL_ERROR -> shown c)
  /\ (forall c', shown c -> level_value c <= level_value c' -> shown c')
  /\ fs (snd (logger_log level msg w1)) = fs w.
Proof.
  cbv zeta.
  assert (Hshow : forall c', level_value level <= level_value c' ->
                    events (snd (logger_log level msg (snd (logger_set_level c' w))))
                    = (events w ++ [EvLog level msg])%list).
  { intros c' Hle. unfold logger_log, logger_set_level. cbn [snd current_level].
    destruct (Z.gtb_spec (level_value level) (level_value c')); [lia | reflexivity]. }
  assert (Hhide : forall c', level_value c' < level_value level ->
                    events (snd (logger_log level msg (snd (logger_set_level c' w))))
                    = events w).
  { intros c' Hlt. unfold logger_log, logger_set_level. cbn [snd current_level].
    destruct (Z.gtb_spec (level_value level) (level_value c')); [reflexivity | lia]. }
  split; [apply Hshow|]. split; [apply Hhide|]. split; [|split].
  - intros ->. apply Hshow. destruct c; simpl; lia.
  - intros c' Hc Hle. apply Hshow.
    destruct (Z.le_gt_cases (level_value level) (level_value c)) as [H|H]; [lia|].
    rewrite (Hhide c ltac:(lia)) in Hc.
    exfalso. symmetry in Hc. rewrite <- (app_nil_r (events w)) in Hc at 2.
    apply app_inv_head in Hc. discriminate.
  - unfold logger_log, logger_set_level. cbn [snd current_level].
    now destruct (level_value level >? level_value c).
Qed.

(** ** The ordinary move *)

(** X19.  A regular entry whose category directory is in place and whose
    name is free there: a dry run only prints the planned move; otherwise
    the entry is renamed to [category_dir/name], and the iteration ends on
    the file system [rename] produced with the flag untouched, or, when
    [rename] fails, on the old file system with the flag raised and the
    ERROR line "Failed to move". *)
Theorem scan_entry_moves `{os : OS} (cfg : OrganizerConfig) (base_dir name : string)
    (l : Locals) (w : World) (m md : file_type) :
  let src := join_path "" PATH_MAX base_dir name in
  let cdir := category_path base_dir name in
  let dst := join_path "" PATH_MAX cdir name in
  String.eqb name "." || String.eqb name ".." = false ->
  os_stat (fs w) src = Some m -> S_ISREG m = true ->
  os_stat (fs w) cdir = Some md -> S_ISDIR md = true ->
  os_stat (fs w) dst = None ->
  exists l' w',
    scan_entry cfg base_dir name l w = (l', w')
    /\ dst_path l' = dst
    /\ if dry_run cfg then
         w' = snd (logger_log LOG_LEVEL_INFO (MsgDryRunMove src dst) w)
         /\ result l' = result l
       else
         match os_rename (fs w) src dst with
         | Some fs' =>
             fs w' = fs' /\ result l' = result l
             /\ exists logs, events w' = (events w ++ EvRename src dst :: logs)%list
                             /\ existsb is_error logs = false
                             /\ existsb is_mutation logs = false
         | None =>
             fs w' = fs w /\ result l' = 1
             /\ events w' = (events w ++ [EvRename src dst;
                                          EvLog LOG_LEVEL_ERROR (MsgMoveFailed src dst)])%list
         end.
Proof.
  intros src cdir dst Hname Hstat Hreg Hcat Hdir Hfree.
  assert (Hsrc : join_path (src_path l) PATH_MAX base_dir name = src)
    by (apply join_path_any_buffer; discriminate).
  assert (Hcdir : join_path (category_dir l) PATH_MAX base_dir
                    (category_for_extension (get_extension name)) = cdir)
    by (apply join_path_any_buffer; discriminate).
  assert (Hdst : join_path (dst_path l) PATH_MAX cdir name = dst)
    by (apply join_path_any_buffer; discriminate).
  unfold scan_entry. rewrite Hname.
  unfold bind at 1. unfold stat at 1. cbn [src_path set_src_path].
  rewrite Hsrc, Hstat, Hreg. cbn [negb].
  unfold bind at 1. cbn [category_dir set_src_path].
  assert (Hens : ensure_directory_exists base_dir
                   (category_for_extension (get_extension name)) (category_dir l)
                   PATH_MAX w = ((0, cdir), w)).
  { unfold ensure_directory_exists, bind, stat, ret. now rewrite Hcdir, Hcat, Hdir. }
  rewrite Hens. cbn [negb Z.eqb].
  unfold bind at 1. cbn [category_dir dst_path set_category_dir set_src_path].
  rewrite (build_unique_destination_free cdir name (dst_path l) PATH_MAX w)
    by (rewrite Hdst; exact Hfree).
  rewrite Hdst. cbn [negb Z.eqb src_path dst_path set_dst_path set_category_dir set_src_path].
  destruct (dry_run cfg).
  { unfold bind, ret.
    destruct (logger_log LOG_LEVEL_INFO (MsgDryRunMove src dst) w) as [[] w1].
    eexists _, w1. split; [reflexivity|]. cbn [dst_path result snd]. auto. }
  unfold bind at 1. unfold rename.
  destruct (os_rename (fs w) src dst) as [fs'|]; cbn [negb Z.eqb]; unfold bind, ret.
  - match goal with |- context [logger_log ?lv ?msg ?x] =>
      destruct (logger_log_cases lv msg x) as [-> | ->] end.
    + eexists _, _. split; [reflexivity|]. cbn [dst_path result fs events].
      repeat split. exists []. auto.
    + eexists _, _. split; [reflexivity|].
      cbn [dst_path result fs events append_events].
      repeat split. exists [EvLog LOG_LEVEL_INFO (MsgMoved src dst)].
      rewrite <- app_assoc. auto.
  - rewrite logger_log_error. eexists _, _. split; [reflexivity|].
    cbn [dst_path result fs events append_events]. rewrite <- app_assoc. auto.
Qed.

Lemma scan_entry_moves_witness :
  exists l' w',
    scan_entry move_d "d" "report.txt" initial_locals
      (boot (disk_of [("d", IDirectory); ("d/report.txt", IRegular);
                      ("d/Documents", IDirectory)] "d" ["report.txt"] []))
    = (l', w')
    /\ dst_path l' = "d/Documents/report.txt"
    /\ inode_at (fs w') "d/Documents/report.txt" = Some IRegular
    /\ inode_at (fs w') "d/report.txt" = None.
Proof.
  destruct (scan_entry_moves (os := DiskOS) move_d "d" "report.txt" initial_locals
              (boot (disk_of [("d", IDirectory); ("d/report.txt", IRegular);
                              ("d/Documents", IDirectory)] "d" ["report.txt"] []))
              S_IFREG S_IFDIR eq_refl eq_refl eq_refl eq_refl eq_refl eq_refl)
    as (l' & w' & Hrun & Hdst & Hfs & _).
  exists l', w'. split; [exact Hrun|]. split; [exact Hdst|].
  cbn in Hfs. rewrite Hfs. split; reflexivity.
Defined.

(** ** The candidates *)

Lemma str_append_inv_head (a b c : string) : a ++ b = a ++ c -> b = c.
Proof.
  induction a as [|x a IH]; simpl; intros H; [exact H|].
  inversion H. now apply IH.
Qed.

Lemma str_append_inv_tail (s : string) :
  forall a b, a ++ s = b ++ s -> a = b.
Proof.
  induction a as [|x a IH]; intros [|y b] H; simpl in H.
  - reflexivity.
  - exfalso. apply (f_equal String.length) in H.
    simpl in H. rewrite length_append in H. lia.
  - exfalso. apply (f_equal String.length) in H.
    simpl in H. rewrite length_append in H. lia.
  - inversion H. f_equal. now apply IH.
Qed.

Lemma decimal_inj (i j : Z) : decimal i = decimal j -> i = j.
Proof.
  unfold decimal. intros H.
  assert (Hproper : forall n, Z.to_int n <> Decimal.Pos Decimal.Nil
                              /\ Z.to_int n <> Decimal.Neg Decimal.Nil).
  { intros [|p|p]; simpl; split; try discriminate;
      intros E; inversion E as [E']; now apply Unsigned.to_uint_nonnil in E'. }
  destruct (Hproper i) as [Hi1 Hi2]. destruct (Hproper j) as [Hj1 Hj2].
  pose proof (NilZero.isi (Z.to_int i) Hi1 Hi2) as Ei.
  pose proof (NilZero.isi (Z.to_int j) Hj1 Hj2) as Ej.
  rewrite H, Ej in Ei. inversion Ei as [E]. symmetry. now apply DecimalZ.to_int_inj.
Qed.

(** X20.  Different suffix numbers give different candidate paths, so the
    search never tries a name twice. *)
Theorem candidates_distinct (cdir name sfx : string) (i j : Z) :
  i <> j -> candidate cdir name i sfx <> candidate cdir name j sfx.
Proof.
  intros Hne Heq. apply Hne. unfold candidate in Heq.
  do 4 apply str_append_inv_head in Heq.
  apply str_append_inv_tail in Heq. now apply decimal_inj.
Qed.

Lemma candidates_distinct_witness :
  candidate "d/Documents" "report" 1 ".txt" <> candidate "d/Documents" "report" 10 ".txt".
Proof.
  apply (candidates_distinct "d/Documents" "report" ".txt" 1 10). discriminate.
Defined.

Lemma strlen_candidate (cdir name sfx : string) (i : Z) :
  strlen (candidate cdir name i sfx)
  = strlen cdir + 1 + strlen name + 1 + strlen (decimal i) + strlen sfx.
Proof.
  unfold candidate. rewrite !strlen_append. unfold strlen at 2 4. simpl String.length. lia.
Qed.

Lemma decimal_length_step (i : Z) :
  1 <= i < 9999 -> strlen (decimal i) <= strlen (decimal (i + 1)).
Proof.
  intros Hi.
  pose proof (proj1 (forallb_forall
                       (fun k => strlen (decimal k) <=? strlen (decimal (k + 1)))
                       (Z_range 1 (Z.to_nat 9998)))
                ltac:(vm_compute; reflexivity) i
                (Z_range_In (Z.to_nat 9998) 1 i ltac:(lia))) as H.
  now apply Z.leb_le in H.
Qed.

Lemma decimal_length_mono (n : nat) :
  forall i, 1 <= i -> i + Z.of_nat n < 10000 ->
            strlen (decimal i) <= strlen (decimal (i + Z.of_nat n)).
Proof.
  induction n as [|n IH]; intros i Hi Hj.
  - rewrite Z.add_0_r. lia.
  - replace (i + Z.of_nat (S n)) with ((i + Z.of_nat n) + 1) by lia.
    pose proof (IH i Hi ltac:(lia)).
    pose proof (decimal_length_step (i + Z.of_nat n) ltac:(lia)). lia.
Qed.

(** X21.  Candidates only get longer: when candidate [i] does not fit the
    buffer, no later one does, so the search started at [i] fails whatever
    exists on the file system (the "try next" after a truncation never
    finds a name). *)
Theorem truncated_candidate_ends_search `{os : OS} (cdir name sfx out_path : string)
    (out_size : Z) (w : World) (fuel : nat) (i : Z) :
  0 <= out_size -> 1 <= i ->
  ~ fits (candidate cdir name i sfx) out_size ->
  (forall j, i <= j < 10000 -> ~ fits (candidate cdir name j sfx) out_size)
  /\ fst (fst (suffix_loop fuel i cdir name sfx out_path out_size w)) = false.
Proof.
  intros Hsize Hi Hover.
  assert (Hlater : forall j, i <= j < 10000 ->
                             ~ fits (candidate cdir name j sfx) out_size).
  { intros j Hj Hfit. apply Hover. unfold fits in *.
    rewrite strlen_candidate in *.
    pose proof (decimal_length_mono (Z.to_nat (j - i)) i Hi ltac:(lia)) as Hmono.
    replace (i + Z.of_nat (Z.to_nat (j - i))) with j in Hmono by lia. lia. }
  split; [exact Hlater|].
  apply suffix_loop_exhausted; [exact Hsize|].
  intros j Hj Hfit. exfalso. exact (Hlater j Hj Hfit).
Qed.

Lemma truncated_candidate_ends_search_witness :
  fst (fst (suffix_loop (Z.to_nat 9999) 1 "d/Documents" "report" ".txt" "" 20
              (boot fresh_disk))) = false.
Proof.
  apply (proj2 (truncated_candidate_ends_search (os := DiskOS)
                  "d/Documents" "report" ".txt" "" 20 (boot fresh_disk)
                  (Z.to_nat 9999) 1 ltac:(lia) ltac:(lia)
                  ltac:(vm_compute; discriminate))).
Defined.

(** * Failures and the status *)

(** ** The verdict on one entry *)

Section VerdictFacts.

Context `{os : OS}.

Lemma suffix_loop_verdict (cdir name sfx : string) (out_size : Z) (w : World)
    (fuel : nat) :
  0 <= out_size ->
  forall (i : Z) (out_path : string),
    (Z.to_nat (10000 - i) <= fuel)%nat ->
    let r := suffix_loop fuel i cdir name sfx out_path out_size w in
    (fst (fst r) = true ->
     exists k, i <= k < 10000
               /\ snd (fst r) = candidate cdir name k sfx
               /\ fits (candidate cdir name k sfx) out_size
               /\ os_stat (fs w) (candidate cdir name k sfx) = None
               /\ forall j, i <= j < k -> fits (candidate cdir name j sfx) out_size ->
                            os_stat (fs w) (candidate cdir name j sfx) <> None)
    /\ (fst (fst r) = false ->
        forall j, i <= j < 10000 -> fits (candidate cdir name j sfx) out_size ->
                  os_stat (fs w) (candidate cdir name j sfx) <> None).
Proof.
  intros Hsize. induction fuel as [|fuel IH]; intros i out_path Hfuel r.
  - subst r. cbn [suffix_loop ret fst snd]. split; [discriminate|].
    intros _ j Hj. lia.
  - subst r. rewrite suffix_loop_step.
    destruct (Z.ltb_spec i 10000) as [Hi|Hi].
    2:{ cbn [ret fst snd]. split; [discriminate|]. intros _ j Hj. lia. }
    cbv zeta. set (buf := fst (snprintf out_path out_size (candidate cdir name i sfx))).
    destruct (IH (i + 1) buf ltac:(lia)) as [Hfound Hnone].
    destruct (Z.geb_spec (strlen (candidate cdir name i sfx)) (int_of_size_t out_size))
      as [Hge|Hlt].
    + (* truncated; try next *)
      split.
      * intros Ht. destruct (Hfound Ht) as (k & Hk & Hp & Hfit & Hfree & Hmin).
        exists k. repeat split; try assumption; try lia.
        intros j Hj Hfitj. destruct (Z.eq_dec j i) as [->|Hne];
          [unfold fits in Hfitj; lia | apply Hmin; [lia | exact Hfitj]].
      * intros Hf j Hj Hfitj. destruct (Z.eq_dec j i) as [->|Hne];
          [unfold fits in Hfitj; lia | apply (Hnone Hf); [lia | exact Hfitj]].
    + assert (Hfit : fits (candidate cdir name i sfx) out_size) by (unfold fits; lia).
      assert (Hbuf : buf = candidate cdir name i sfx)
        by (apply snprintf_fits; [exact Hsize | exact Hfit]).
      unfold bind, stat, ret.
      destruct (os_stat (fs w) buf) as [m|] eqn:Hst.
      * rewrite Hbuf in Hst. split.
        -- intros Ht. destruct (Hfound Ht) as (k & Hk & Hp & Hfitk & Hfree & Hmin).
           exists k. repeat split; try assumption; try lia.
           intros j Hj Hfitj. destruct (Z.eq_dec j i) as [->|Hne];
             [congruence | apply Hmin; [lia | exact Hfitj]].
        -- intros Hf j Hj Hfitj. destruct (Z.eq_dec j i) as [->|Hne];
             [congruence | apply (Hnone Hf); [lia | exact Hfitj]].
      * cbn [fst snd]. split; [|discriminate].
        intros _. exists i. rewrite Hbuf in *. repeat split; try assumption; try lia.
Qed.

End VerdictFacts.

Section EntryVerdict.

Context `{os : OS}.

Variables (cfg : OrganizerConfig) (base_dir name : string).

Let cdir : string := category_path base_dir name.

(** Provisioning, as the code does it, against the answers of the system
    calls. *)
Lemma ensure_directory_exists_verdict (out_path : string) (w : World) :
  exists rc w1,
    ensure_directory_exists base_dir (category_for_extension (get_extension name))
      out_path PATH_MAX w = ((rc, cdir), w1)
    /\ ((rc = -1 /\ provisioning_fails base_dir name (fs w))
        \/ (rc = 0 /\ provisioned base_dir name (fs w) (fs w1)
            /\ ~ provisioning_fails base_dir name (fs w)
            /\ forall f1, provisioned base_dir name (fs w) f1 -> f1 = fs w1)).
Proof.
  assert (Hcdir : join_path out_path PATH_MAX base_dir
                    (category_for_extension (get_extension name)) = cdir)
    by (apply join_path_any_buffer; discriminate).
  unfold ensure_directory_exists, bind, stat, ret, mkdir. rewrite Hcdir.
  unfold provisioning_fails, provisioned. fold cdir.
  destruct (os_stat (fs w) cdir) as [md|] eqn:Hstat.
  - destruct (S_ISDIR md) eqn:Hdir.
    + exists 0, w. split; [reflexivity|]. right. split; [reflexivity|].
      split; [left; now exists md|]. split.
      * intros [(md' & Hs & Hd) | (Hs & _)]; congruence.
      * intros f1 [(md' & _ & _ & ->) | (Hs & _)]; congruence.
    + rewrite logger_log_error. eexists (-1), _. split; [reflexivity|].
      left. split; [reflexivity|]. left. now exists md.
  - destruct (os_mkdir (fs w) cdir 493) as [f1|] eqn:Hmk; cbn [negb Z.eqb].
    + match goal with |- context [logger_log ?lv ?msg ?x] =>
        destruct (logger_log lv msg x) as [[] w1] eqn:Hlog;
        assert (Hfs : fs w1 = f1)
          by (destruct (logger_log_cases lv msg x) as [E|E]; rewrite E in Hlog;
              now inversion Hlog)
      end.
      exists 0, w1. split; [reflexivity|]. right. split; [reflexivity|].
      rewrite Hfs. split; [right; now split|]. split.
      * intros [(md' & Hs & _) | (_ & Hm)]; congruence.
      * intros f1' [(md' & Hs & _) | (_ & Hm)]; congruence.
    + rewrite logger_log_error. eexists (-1), _. split; [reflexivity|].
      left. split; [reflexivity|]. right. now split.
Qed.

(** Resolution, likewise. *)
Lemma build_unique_destination_verdict (out_path : string) (w1 : World) :
  exists rc dst w2,
    build_unique_destination cdir name out_path PATH_MAX w1 = ((rc, dst), w2)
    /\ fs w2 = fs w1
    /\ ((rc = -1 /\ resolution_fails base_dir name (fs w1))
        \/ (rc = 0 /\ resolved base_dir name (fs w1) dst
            /\ ~ resolution_fails base_dir name (fs w1)
            /\ forall dst', resolved base_dir name (fs w1) dst' -> dst' = dst)).
Proof.
  assert (Hfirst : join_path out_path PATH_MAX cdir name = entry_first base_dir name)
    by (apply join_path_any_buffer; discriminate).
  unfold build_unique_destination, bind, stat, ret. rewrite Hfirst.
  unfold resolution_fails, resolved, entry_candidate. fold cdir.
  set (first := entry_first base_dir name).
  destruct (os_stat (fs w1) first) as [m|] eqn:Hstat.
  - destruct (split_name name) as [stem sfx]. cbn [fst snd].
    pose proof (suffix_loop_verdict cdir stem sfx PATH_MAX w1 (Z.to_nat 9999)
                  ltac:(unfold PATH_MAX; lia) 1 first ltac:(lia)) as Hloop.
    pose proof (suffix_loop_pure (Z.to_nat 9999) 1 cdir stem sfx first PATH_MAX w1)
      as Hpure.
    cbv zeta in Hloop.
    destruct (suffix_loop (Z.to_nat 9999) 1 cdir stem sfx first PATH_MAX w1)
      as [[found p] w2].
    cbn [fst snd] in *. subst w2. destruct Hloop as [Hfound Hnone]. destruct found.
    + destruct (Hfound eq_refl) as (k & Hk & -> & Hfit & Hfree & Hmin).
      eexists 0, _, w1. split; [reflexivity|]. split; [reflexivity|].
      right. split; [reflexivity|]. split; [|split].
      * right. split; [congruence|]. exists k.
        split; [exact Hk|]. split; [reflexivity|]. split; [exact Hfit|].
        split; [exact Hfree | exact Hmin].
      * intros [_ Hall]. exact (Hall k Hk Hfit Hfree).
      * intros dst' [[Hnot _] | (_ & k' & Hk' & -> & Hfit' & Hfree' & Hmin')];
          [congruence|].
        destruct (Z.lt_trichotomy k k') as [Hlt | [-> | Hgt]]; [|reflexivity|].
        -- exfalso. exact (Hmin' k ltac:(lia) Hfit Hfree).
        -- exfalso. exact (Hmin k' ltac:(lia) Hfit' Hfree').
    + rewrite logger_log_error. eexists (-1), _, _. split; [reflexivity|].
      split; [reflexivity|]. left. split; [reflexivity|].
      split; [congruence | exact (Hnone eq_refl)].
  - eexists 0, _, w1. split; [reflexivity|]. split; [reflexivity|].
    right. split; [reflexivity|]. split; [now left|]. split.
    + intros [Hbusy _]. congruence.
    + intros dst' [[_ ->] | (Hbusy & _)]; [reflexivity | congruence].
Qed.

Ltac step_line :=
  match goal with
  | |- context [logger_log ?lv ?msg ?x] =>
      destruct (logger_log lv msg x) as [[] ?]
  end.

(** The flag after one iteration, against the verdict: raised to 1 when the
    entry fails, left as it was when it does not. *)
Lemma scan_entry_verdict (l : Locals) (w : World) :
  exists l' w',
    scan_entry cfg base_dir name l w = (l', w')
    /\ ((entry_failure cfg base_dir name (fs w) /\ result l' = 1)
        \/ (~ entry_failure cfg base_dir name (fs w) /\ result l' = result l)).
Proof.
  unfold scan_entry, entry_failure.
  destruct (String.eqb name "." || String.eqb name "..") eqn:Hname.
  { exists l, w. split; [reflexivity|]. right. split; [|reflexivity].
    intros [[Hn _] _]. congruence. }
  set (src := join_path (src_path l) PATH_MAX base_dir name).
  assert (Hsrc : src = entry_src base_dir name)
    by (apply join_path_any_buffer; discriminate).
  unfold bind at 1. unfold stat at 1. cbn [src_path set_src_path].
  destruct (os_stat (fs w) src) as [m|] eqn:Hstat.
  2:{ unfold bind, ret. step_line. eexists _, _. split; [reflexivity|].
      right. split; [|reflexivity].
      intros [[_ (m & Hm & _)] _]. rewrite <- Hsrc in Hm. congruence. }
  destruct (S_ISREG m) eqn:Hreg; cbn [negb].
  2:{ assert (Hno : ~ (needs_action base_dir name (fs w) /\
                       (provisioning_fails base_dir name (fs w) \/
                        exists f1, provisioned base_dir name (fs w) f1 /\
                          (resolution_fails base_dir name f1 \/
                           dry_run cfg = false /\
                           exists dst, resolved base_dir name f1 dst /\
                                       os_rename f1 (entry_src base_dir name) dst = None)))).
      { intros [[_ (m' & Hm & Hr)] _]. rewrite <- Hsrc in Hm. congruence. }
      unfold bind, ret. destruct (verbose cfg); [step_line|];
        (eexists _, _; split; [reflexivity|]; right; split; [exact Hno | reflexivity]). }
  assert (Hneeds : needs_action base_dir name (fs w)).
  { split; [exact Hname|]. exists m. rewrite <- Hsrc. now split. }
  destruct (ensure_directory_exists_verdict (category_dir (set_src_path l src)) w)
    as (rc & w1 & Hens & Hverdict1).
  unfold bind at 1. rewrite Hens.
  destruct Hverdict1 as [[-> Hpf] | (-> & Hprov & Hnopf & Huniq1)]; cbn [negb Z.eqb].
  { eexists _, _. split; [reflexivity|].
    left. split; [split; [exact Hneeds | now left] | reflexivity]. }
  cbn [category_dir dst_path set_category_dir set_src_path].
  destruct (build_unique_destination_verdict (dst_path l) w1)
    as (rc2 & dst & w2 & Hbuild & Hfs2 & Hverdict2).
  unfold bind at 1. fold cdir. rewrite Hbuild.
  destruct Hverdict2 as [[-> Hrf] | (-> & Hres & Hnorf & Huniq2)]; cbn [negb Z.eqb].
  { eexists _, _. split; [reflexivity|].
    left. split; [|reflexivity]. split; [exact Hneeds|].
    right. exists (fs w1). split; [exact Hprov | now left]. }
  cbn [src_path dst_path set_dst_path set_category_dir set_src_path].
  destruct (dry_run cfg) eqn:Hdry.
  { unfold bind, ret. step_line. eexists _, _. split; [reflexivity|].
    right. split; [|reflexivity].
    intros [_ [Hpf | (f1 & Hp & [Hrf | (Hd & _)])]];
      [now apply Hnopf | rewrite (Huniq1 f1 Hp) in Hrf; now apply Hnorf | congruence]. }
  unfold bind at 1. unfold rename at 1. rewrite Hfs2.
  destruct (os_rename (fs w1) src dst) as [f3|] eqn:Hren; cbn [negb Z.eqb];
    unfold bind, ret.
  - step_line. eexists _, _. split; [reflexivity|]. right. split; [|reflexivity].
    intros [_ [Hpf | (f1 & Hp & [Hrf | (_ & dst' & Hres' & Hnone)])]].
    + now apply Hnopf.
    + rewrite (Huniq1 f1 Hp) in Hrf. now apply Hnorf.
    + rewrite (Huniq1 f1 Hp) in *. rewrite (Huniq2 dst' Hres') in Hnone.
      rewrite <- Hsrc in Hnone. congruence.
  - rewrite logger_log_error. eexists _, _. split; [reflexivity|].
    left. split; [|reflexivity].
    split; [exact Hneeds|]. right. exists (fs w1). split; [exact Hprov|].
    right. split; [reflexivity|]. exists dst. split; [exact Hres|].
    now rewrite <- Hsrc.
Qed.

End EntryVerdict.

(** ** The verdict on a scan *)

Lemma scan_verdict `{os : OS} (cfg : OrganizerConfig) (base_dir : string)
    (entries : list string) :
  forall (l : Locals) (w : World),
  exists l' w',
    scan cfg base_dir entries l w = (l', w')
    /\ (result l = 1 -> result l' = 1)
    /\ (any_failure cfg base_dir entries l w -> result l' = 1)
    /\ (~ any_failure cfg base_dir entries l w -> result l' = result l).
Proof.
  induction entries as [|name rest IH]; intros l w.
  - exists l, w. cbn [scan any_failure ret]. repeat split; auto. contradiction.
  - destruct (scan_entry_verdict cfg base_dir name l w) as (l1 & w1 & Hstep & Hverdict).
    destruct (IH l1 w1) as (l2 & w2 & Hrest & Hsticky & Hfail & Hclean).
    exists l2, w2. cbn [scan any_failure]. unfold bind. rewrite Hstep, Hrest.
    cbn [fst snd].
    split; [reflexivity|]. split; [|split].
    + intros H1. apply Hsticky. destruct Hverdict as [[_ ->] | [_ ->]]; auto.
    + intros [Hentry | Hlater]; [|now apply Hfail].
      apply Hsticky. destruct Hverdict as [[_ H] | [Hnot _]]; [exact H | contradiction].
    + intros Hnone.
      rewrite (Hclean (fun H => Hnone (or_intror H))).
      destruct Hverdict as [[Hentry _] | [_ H]]; [|exact H].
      exfalso. apply Hnone. now left.
Qed.

(** ** Orchestrator: failures and status *)



(** C10.  Whatever the configuration and the file system, the status is 0
    or 1.  Every validation failure gives 1: a NULL configuration or target,
    a target that cannot be stat'ed or is not a directory, and a directory
    that cannot be opened.  Every failure of an entry sets the flag to 1,
    the flag stays 1 through the rest of the scan, and the status of a run
    in which an entry failed is 1. *)
Theorem organizer_run_status `{os : OS} (config : option OrganizerConfig) (w : World) :
  (fst (organizer_run config w) = 0 \/ fst (organizer_run config w) = 1)
  /\ (rejected config w -> fst (organizer_run config w) = 1)
  /\ (forall cfg base_dir m,
         config = Some cfg -> target_dir cfg = Some base_dir ->
         os_stat (fs w) base_dir = Some m -> S_ISDIR m = true ->
         (os_readdir (fs w) base_dir = None -> fst (organizer_run config w) = 1)
         /\ (forall entries,
                os_readdir (fs w) base_dir = Some entries ->
                any_failure cfg base_dir entries initial_locals
                  (scan_start cfg base_dir w) ->
                fst (organizer_run config w) = 1))
  /\ (forall cfg base_dir name l w0,
         entry_failure cfg base_dir name (fs w0) ->
         result (fst (scan_entry cfg base_dir name l w0)) = 1)
  /\ (forall cfg base_dir entries l w0,
         result l = 1 -> result (fst (scan cfg base_dir entries l w0)) = 1).
Proof.
  split; [|split; [|split; [|split]]].
  - destruct (organizer_run_flag config w) as (rc & w' & new & -> & _ & Hflag).
    cbn [fst]. destruct Hflag as [[-> _] | [-> _]]; auto.
  - unfold rejected, organizer_run.
    destruct config as [cfg|];
      [|intros _; unfold bind, ret; now rewrite logger_log_error].
    destruct (target_dir cfg) as [base_dir|];
      [|intros _; unfold bind, ret; now rewrite logger_log_error].
    unfold bind at 1. unfold stat.
    destruct (os_stat (fs w) base_dir) as [m|].
    + intros ->. cbn [negb]. unfold bind, ret. now rewrite logger_log_error.
    + intros _. unfold bind, ret. now rewrite logger_log_error.
  - intros cfg base_dir m -> Htarget Hstat Hdir. split.
    + intros Hread. unfold organizer_run. rewrite Htarget.
      unfold bind at 1. unfold stat. rewrite Hstat, Hdir. cbn [negb].
      unfold bind at 1. unfold opendir. rewrite Hread.
      unfold bind, ret. now rewrite logger_log_error.
    + intros entries Hread Hany.
      rewrite (organizer_run_scans cfg base_dir w m entries Htarget Hstat Hdir Hread).
      destruct (scan_verdict cfg base_dir entries initial_locals
                  (scan_start cfg base_dir w)) as (l' & w' & -> & _ & Hfail & _).
      cbn [fst]. now apply Hfail.
  - intros cfg base_dir name l w0 Hentry.
    destruct (scan_entry_verdict cfg base_dir name l w0)
      as (l' & w' & -> & [[_ H] | [Hnot _]]); [exact H | contradiction].
  - intros cfg base_dir entries l w0 Hl.
    destruct (scan_verdict cfg base_dir entries l w0) as (l' & w' & -> & Hsticky & _).
    now apply Hsticky.
Qed.

Lemma organizer_run_status_witness :
  fst (organizer_run None (boot fresh_disk)) = 1
  /\ fst (organizer_run (Some (mkConfig (Some "d/a.jpg") false false)) (boot fresh_disk)) = 1
  /\ result (fst (scan_entry move_d "d" "a.jpg" initial_locals (boot locked_disk))) = 1.
Proof.
  split; [|split].
  - apply (proj1 (proj2 (organizer_run_status (os := DiskOS) None (boot fresh_disk)))).
    exact I.
  - apply (proj1 (proj2 (organizer_run_status (os := DiskOS)
                           (Some (mkConfig (Some "d/a.jpg") false false))
                           (boot fresh_disk)))).
    reflexivity.
  - apply (proj1 (proj2 (proj2 (proj2 (organizer_run_status (os := DiskOS) None
                                         (boot fresh_disk)))))).
    split.
    + split; [reflexivity|]. exists S_IFREG. split; vm_compute; reflexivity.
    + left. right. split; vm_compute; reflexivity.
Defined.
